(** * Recommendation core of the listings marketplace (app.py)

    Shallow embedding of [RecommendationSystem] (app.py, lines 184-313):
    [get_content_based_recommendations], [get_collaborative_recommendations]
    and [get_hybrid_recommendations], together with the parts of pandas,
    numpy and scikit-learn they call; and of the code around it that writes
    the tables the recommender reads: approval of listings, recording of
    interactions, the preference form, favourites, the listing query and the
    accounts ([AuthSystem], [Database.init_db], setup.py).

    Conventions of the embedding.
    - A SQLite table is the list of its rows, in row order; a DataFrame is the
      list of its rows, an empty DataFrame is [[]].
    - Numbers of the recommender are exact rationals ([Q]); the square root
      taken by [StandardScaler] and by [cosine_similarity] is a parameter
      [sqrt] of the development, so every universally quantified result holds
      whatever the square root returns.  Equality of numbers is [Qeq] ([==]).
      The rounding of binary64 is left out of these definitions; the
      normalizer is given a second time over binary64 numbers in the module
      [Float64], where what rounding changes is stated.
    - Sorting done by pandas ([sort_values], [value_counts], [nlargest]) is
      by descending key.  [sort_values] with its default algorithm does not
      fix the order among rows of equal key; [sort_desc] keeps such rows in
      their relative order, which is one of the orders pandas can return.
      The general results below say nothing on the order among equal keys.
    - Hashing of a password ([bcrypt.hashpw]) is taken to return a hash; a
      password that bcrypt refuses is outside [Auth.register_user]. *)

From Stdlib Require Import Ascii String ZArith QArith List Bool Lia Permutation Sorted.
From Stdlib Require PrimFloat Uint63.
Import ListNotations.

Local Open Scope string_scope.
Local Open Scope list_scope.
Local Open Scope Z_scope.

(** ** Tables of the database (Database.init_db) *)

(** Row of [imoveis].  Only the columns the recommender reads are kept:
    [preco REAL NOT NULL], [quartos INTEGER], [banheiros INTEGER], [area REAL]
    (the last three may be NULL). *)
Record Imovel := mkImovel {
  id : Z;
  tipo : string;
  provincia : string;
  preco : Q;
  quartos : option Z;
  banheiros : option Z;
  area : option Q;
  status : string
}.

(** Row of [interacoes]: (usuario_id, imovel_id, tipo). *)
Record Interacao := mkInteracao {
  usuario_id : Z;
  imovel_id : Z;
  tipo_interacao : string
}.

(** The JSON object kept in [usuarios.preferencias].  A key may be missing
    ([None]); [tipo] and [provincia] hold a string or [null] ([Some None]),
    as [update_preferences] writes them; [preco_max] and [quartos_min] hold
    numbers. *)
Record Prefs := mkPrefs {
  pref_tipo : option (option string);
  pref_provincia : option (option string);
  preco_max : option Q;
  quartos_min : option Q
}.

(** Row of [usuarios]; [preferencias] is [None] for NULL or the empty text. *)
Record Usuario := mkUsuario {
  usuario : Z;
  preferencias : option Prefs
}.

Record Database := mkDatabase {
  usuarios : list Usuario;
  imoveis : list Imovel;
  interacoes : list Interacao
}.

(** A row of a returned DataFrame: the listing and, when the frame has it,
    the [similaridade] column. *)
Record Row := mkRow {
  imovel : Imovel;
  similaridade : option Q
}.

Definition row_id (r : Row) : Z := id (imovel r).

(** ** pandas and numpy helpers *)

Definition isin (x : Z) (l : list Z) : bool := existsb (Z.eqb x) l.

(** [df.head(n)]: the first [n] rows, or all but the last [-n] when [n < 0]. *)
Definition head {A : Type} (n : Z) (l : list A) : list A :=
  if 0 <=? n then firstn (Z.to_nat n) l
  else firstn (length l - Z.to_nat (- n))%nat l.

Definition Qlt_bool (x y : Q) : bool := negb (Qle_bool y x).

Section Sorting.
Context {A K : Type} (ltb : K -> K -> bool) (key : A -> K).

(** Insert [x] in front of the first row whose key is not larger. *)
Fixpoint insert_desc (x : A) (l : list A) : list A :=
  match l with
  | [] => [x]
  | y :: ys => if ltb (key x) (key y) then y :: insert_desc x ys
               else x :: y :: ys
  end.

(** Sort by descending key; rows of equal key stay in their relative
    order. *)
Definition sort_desc (l : list A) : list A := fold_right insert_desc [] l.
End Sorting.

(** [df.nlargest(n, 'similaridade')]. *)
Definition nlargest (n : Z) (df : list (Imovel * Q)) : list (Imovel * Q) :=
  if n <=? 0 then []
  else firstn (Z.to_nat n) (sort_desc Qlt_bool snd df).

(** Sorted distinct values, as the index and the columns of a pivot table. *)
Fixpoint insert_unique (x : Z) (l : list Z) : list Z :=
  match l with
  | [] => [x]
  | y :: ys => if x <? y then x :: y :: ys
               else if x =? y then y :: ys
               else y :: insert_unique x ys
  end.

Definition sorted_unique (l : list Z) : list Z := fold_right insert_unique [] l.

(** Distinct values in order of first appearance. *)
Fixpoint unique (l : list Z) : list Z :=
  match l with
  | [] => []
  | x :: xs => x :: filter (fun y => negb (y =? x)) (unique xs)
  end.

Definition count_of (x : Z) (l : list Z) : Z :=
  Z.of_nat (length (filter (Z.eqb x) l)).

(** [Series.value_counts()]: one entry per distinct value, by descending
    count; among equal counts the order is the one [sort_desc] leaves. *)
Definition value_counts (l : list Z) : list (Z * Z) :=
  sort_desc Z.ltb snd (map (fun x => (x, count_of x l)) (unique l)).

(** [drop_duplicates(subset=['id'])]: the first row of each id is kept. *)
Fixpoint drop_duplicates (seen : list Z) (l : list Row) : list Row :=
  match l with
  | [] => []
  | r :: rs => if isin (row_id r) seen then drop_duplicates seen rs
               else r :: drop_duplicates (row_id r :: seen) rs
  end.

Definition Qsum (l : list Q) : Q := fold_right Qplus 0%Q l.

Definition dot (x y : list Q) : Q :=
  Qsum (map (fun p => (fst p * snd p)%Q) (combine x y)).

(** ** scikit-learn: StandardScaler and cosine_similarity *)

Section Recommender.
(** The square root of numpy, on the embedding's numbers. *)
Variable sqrt : Q -> Q.

Record StandardScaler := mkScaler {
  mean_ : list Q;
  scale_ : list Q
}.

Definition column_at (j : nat) (X : list (list Q)) : list Q :=
  map (fun row => nth j row 0%Q) X.

Definition n_features (X : list (list Q)) : nat :=
  match X with [] => 0%nat | row :: _ => length row end.

Definition mean (col : list Q) : Q :=
  (Qsum col / inject_Z (Z.of_nat (length col)))%Q.

Definition var (col : list Q) : Q :=
  (Qsum (map (fun x => (x - mean col) * (x - mean col)) col)
   / inject_Z (Z.of_nat (length col)))%Q.

(** [scale_]: the standard deviation, and 1 for a feature of zero
    variance ([_handle_zeros_in_scale]).  On exact numbers the variance of a
    constant column is 0; the test made on binary64 numbers is
    [Float64.is_constant_feature]. *)
Definition scale (col : list Q) : Q :=
  if Qeq_bool (var col) 0 then 1%Q else sqrt (var col).

Definition fit (X : list (list Q)) : StandardScaler :=
  let cols := map (fun j => column_at j X) (seq 0 (n_features X)) in
  mkScaler (map mean cols) (map scale cols).

Definition transform_row (s : StandardScaler) (row : list Q) : list Q :=
  map (fun c => ((fst c - fst (snd c)) / snd (snd c))%Q)
      (combine row (combine (mean_ s) (scale_ s))).

Definition transform (s : StandardScaler) (X : list (list Q)) : list (list Q) :=
  map (transform_row s) X.

Definition fit_transform (X : list (list Q)) : list (list Q) :=
  transform (fit X) X.

(** [sklearn.preprocessing.normalize]: a row of norm zero is left as it is. *)
Definition normalize (row : list Q) : list Q :=
  let norm := sqrt (Qsum (map (fun x => x * x)%Q row)) in
  let norm := if Qeq_bool norm 0 then 1%Q else norm in
  map (fun x => (x / norm)%Q) row.

Definition cosine_similarity (X Y : list (list Q)) : list (list Q) :=
  let X_normalized := map normalize X in
  let Y_normalized := map normalize Y in
  map (fun x => map (dot x) Y_normalized) X_normalized.

(** ** get_content_based_recommendations (app.py 189-244) *)

Definition features : list string := ["preco"; "quartos"; "banheiros"; "area"].

(** [imoveis_df[feature]], NULL being [None]. *)
Definition feature_value (feature : string) (i : Imovel) : option Q :=
  if (feature =? "preco")%string then Some (preco i)
  else if (feature =? "quartos")%string then option_map inject_Z (quartos i)
  else if (feature =? "banheiros")%string then option_map inject_Z (banheiros i)
  else if (feature =? "area")%string then area i
  else None.

Definition fillna (v : Q) (x : option Q) : Q :=
  match x with Some y => y | None => v end.

(** [imoveis_df[features].fillna(0)]. *)
Definition imoveis_features (imoveis_df : list Imovel) : list (list Q) :=
  map (fun i => map (fun f => fillna 0%Q (feature_value f i)) features) imoveis_df.

(** SELECT * FROM imoveis WHERE status = 'aprovado'. *)
Definition aprovados (db : Database) : list Imovel :=
  filter (fun i => (status i =? "aprovado")%string) (imoveis db).

(** SELECT preferencias FROM usuarios WHERE id = ?. *)
Definition select_preferencias (db : Database) (user_id : Z) : list (option Prefs) :=
  map preferencias (filter (fun u => usuario u =? user_id) (usuarios db)).

Definition default_prefs : Prefs :=
  mkPrefs (Some (Some "casa")) (Some (Some "Luanda")) (Some (50000000 # 1)) None.

(** Lines 211-214: the stored object when there is one, the default object
    otherwise. *)
Definition user_prefs_of (user_df : list (option Prefs)) : Prefs :=
  match user_df with
  | Some p :: _ => p
  | _ => default_prefs
  end.

(** Lines 225-230: the loop over [features] filling [user_vector]. *)
Definition user_vector (user_prefs : Prefs) : list Q :=
  map (fun feature =>
         match (feature =? "preco")%string, preco_max user_prefs with
         | true, Some v => v
         | _, _ =>
             match (feature =? "quartos")%string, quartos_min user_prefs with
             | true, Some v => v
             | _, _ => 0%Q
             end
         end) features.

(** [column == value] of pandas on a text column: comparing with [None]
    is false on every row. *)
Definition eq_scalar (cell : string) (value : option string) : bool :=
  match value with
  | Some s => (cell =? s)%string
  | None => false
  end.

(** Lines 217-235: the [similaridade] column. *)
Definition similarities (imoveis_df : list Imovel) (user_prefs : Prefs) : list Q :=
  let X := imoveis_features imoveis_df in
  let scaler := fit X in
  let normalized_features := transform scaler X in
  let user_vector := transform scaler [user_vector user_prefs] in
  nth 0 (cosine_similarity user_vector normalized_features) [].

(** Lines 238-242: the two filters. *)
Definition filter_prefs (user_prefs : Prefs) (df : list (Imovel * Q))
  : list (Imovel * Q) :=
  let df := match pref_tipo user_prefs with
            | Some v => filter (fun r => eq_scalar (tipo (fst r)) v) df
            | None => df
            end in
  match pref_provincia user_prefs with
  | Some v => filter (fun r => eq_scalar (provincia (fst r)) v) df
  | None => df
  end.

Definition get_content_based_recommendations
  (db : Database) (user_id : Z) (n_recommendations : Z) : list Row :=
  let user_df := select_preferencias db user_id in
  let imoveis_df := aprovados db in
  match imoveis_df with
  | [] => []
  | _ :: _ =>
      let user_prefs := user_prefs_of user_df in
      let imoveis_df := combine imoveis_df (similarities imoveis_df user_prefs) in
      let imoveis_df := filter_prefs user_prefs imoveis_df in
      map (fun r => mkRow (fst r) (Some (snd r)))
          (nlargest n_recommendations imoveis_df)
  end.

(** ** get_collaborative_recommendations (app.py 246-297) *)

(** Index (sorted user ids) of the pivot table. *)
Definition matrix_index (interacoes_df : list Interacao) : list Z :=
  sorted_unique (map usuario_id interacoes_df).

Definition matrix_columns (interacoes_df : list Interacao) : list Z :=
  sorted_unique (map imovel_id interacoes_df).

(** [pd.pivot_table(..., aggfunc='count', fill_value=0)]: the number of rows
    of each (user, listing) pair. *)
Definition user_item_matrix (interacoes_df : list Interacao) : list (list Q) :=
  map (fun u =>
         map (fun c =>
                inject_Z (Z.of_nat (length
                  (filter (fun r => (usuario_id r =? u) && (imovel_id r =? c))
                          interacoes_df))))
             (matrix_columns interacoes_df))
      (matrix_index interacoes_df).

(** [user_sim_df[user_id]]: the column of the target user, labelled by the
    index. *)
Definition user_sim_column (interacoes_df : list Interacao) (user_id : Z)
  : list (Z * Q) :=
  let index := matrix_index interacoes_df in
  let M := user_item_matrix interacoes_df in
  let user_similarity := cosine_similarity M M in
  combine index
    (map (fun row =>
            match find (fun c => fst c =? user_id) (combine index row) with
            | Some c => snd c
            | None => 0%Q
            end) user_similarity).

(** Line 288: [sort_values(ascending=False)[1:11]]; among equal
    similarities the order is the one [sort_desc] leaves. *)
Definition similar_users (interacoes_df : list Interacao) (user_id : Z)
  : list (Z * Q) :=
  firstn 10 (skipn 1 (sort_desc Qlt_bool snd (user_sim_column interacoes_df user_id))).

(** Lines 291-295. *)
Definition recommended_imoveis (interacoes_df : list Interacao) (user_id : Z)
  (n_recommendations : Z) : list (Z * Z) :=
  let similar_users := map fst (similar_users interacoes_df user_id) in
  let similar_users_interactions :=
    filter (fun r => isin (usuario_id r) similar_users) interacoes_df in
  head n_recommendations (value_counts (map imovel_id similar_users_interactions)).

Definition get_collaborative_recommendations
  (db : Database) (user_id : Z) (n_recommendations : Z) : list Row :=
  let interacoes_df := interacoes db in
  let imoveis_df := aprovados db in
  match interacoes_df, imoveis_df with
  | [], _ | _, [] => []
  | _ :: _, _ :: _ =>
      if negb (isin user_id (matrix_index interacoes_df)) then []
      else
        let recommended_imoveis :=
          recommended_imoveis interacoes_df user_id n_recommendations in
        map (fun i => mkRow i None)
            (filter (fun i => isin (id i) (map fst recommended_imoveis)) imoveis_df)
  end.

(** ** get_hybrid_recommendations (app.py 299-313) *)

Definition get_hybrid_recommendations
  (db : Database) (user_id : Z) (n_recommendations : Z) : list Row :=
  let content_recs := get_content_based_recommendations db user_id n_recommendations in
  let collab_recs := get_collaborative_recommendations db user_id n_recommendations in
  match content_recs, collab_recs with
  | [], [] => []
  | [], _ :: _ => collab_recs
  | _ :: _, [] => content_recs
  | _ :: _, _ :: _ =>
      let combined := drop_duplicates [] (content_recs ++ collab_recs) in
      head n_recommendations combined
  end.

End Recommender.

(** A computable square root on [Q] (52 fractional bits), used to run the
    functions on concrete tables. *)
Definition sqrt_approx (q : Q) : Q :=
  Qmake (Z.sqrt (Qnum q * 2 ^ 104 / Z.pos (Qden q))) (2 ^ 52).

(** ** StandardScaler on binary64 numbers

    The normalizer as scikit-learn computes it on the float64 frame
    [imoveis_df[features].fillna(0)]: sums are taken row after row
    ([np.sum(axis=0)]), the variance is the corrected two-pass one of
    [_incremental_mean_and_var], a column is taken as constant by the test of
    [_is_constant_feature], and the divisor of such a column is set to 1
    ([_handle_zeros_in_scale]). *)
Module Float64.
Import PrimFloat.

(** The float64 of an integer (below 2^63 in absolute value). *)
Definition of_Z (z : Z) : float :=
  match z with
  | Z0 => zero
  | Zpos _ => of_uint63 (Uint63.of_Z z)
  | Zneg p => opp (of_uint63 (Uint63.of_Z (Zpos p)))
  end.

(** The float64 held by a REAL column for the decimal [q]. *)
Definition of_Q (q : Q) : float := div (of_Z (Qnum q)) (of_Z (Zpos (Qden q))).

(** [np.finfo(np.float64).eps]. *)
Definition eps : float := div one (of_Z (2 ^ 52)).

Definition sum (col : list float) : float := fold_left add col zero.

Definition n_samples (col : list float) : float := of_Z (Z.of_nat (length col)).

Definition mean (col : list float) : float := div (sum col) (n_samples col).

Definition var (col : list float) : float :=
  let T := div (sum col) (n_samples col) in
  let temp := map (fun x => sub x T) col in
  let correction := sum temp in
  let new_unnormalized_variance := sum (map (fun t => mul t t) temp) in
  div (sub new_unnormalized_variance
           (div (mul correction correction) (n_samples col)))
      (n_samples col).

Definition is_constant_feature (col : list float) : bool :=
  let n := n_samples col in
  let upper_bound :=
    add (mul (mul n eps) (var col))
        (mul (mul (mul n (mean col)) eps) (mul (mul n (mean col)) eps)) in
  leb (var col) upper_bound.

Definition scale (col : list float) : float :=
  if is_constant_feature col then one else sqrt (var col).

Record StandardScaler := mkScaler {
  mean_ : list float;
  scale_ : list float
}.

Definition column_at (j : nat) (X : list (list float)) : list float :=
  map (fun row => nth j row zero) X.

Definition n_features (X : list (list float)) : nat :=
  match X with [] => 0%nat | row :: _ => length row end.

Definition fit (X : list (list float)) : StandardScaler :=
  let cols := map (fun j => column_at j X) (seq 0 (n_features X)) in
  mkScaler (map mean cols) (map scale cols).

(** [X -= mean_; X /= scale_]. *)
Definition transform_row (s : StandardScaler) (row : list float) : list float :=
  map (fun c => div (sub (fst c) (fst (snd c))) (snd (snd c)))
      (combine row (combine (mean_ s) (scale_ s))).

Definition transform (s : StandardScaler) (X : list (list float))
  : list (list float) :=
  map (transform_row s) X.

Definition fit_transform (X : list (list float)) : list (list float) :=
  transform (fit X) X.

(** [imoveis_df[features].fillna(0)] as the float64 frame. *)
Definition imoveis_features (imoveis_df : list Imovel) : list (list float) :=
  map (fun i => map (fun f => of_Q (fillna 0%Q (feature_value f i))) features)
      imoveis_df.
End Float64.

(** Outcome of a call of the recommender from Python: it returns a frame or
    raises.  The three methods contain no [raise] and no test of
    [n_recommendations], and [nlargest] and [head] accept every integer, so a
    call on well-typed tables always returns. *)
Inductive Outcome :=
| Returned (df : list Row)
| ValidationError (field : string).

(** [recommend(user_id, n)]: the call of [get_hybrid_recommendations]. *)
Definition recommend (sqrt : Q -> Q) (db : Database) (user_id n : Z) : Outcome :=
  Returned (get_hybrid_recommendations sqrt db user_id n).

(** ** Readings of the specification compared with the code *)


(** The collaborative result in the words of the specification: the approved
    listings of the most frequent ids, in the order of the frequency
    ranking. *)
Definition spec_collaborative_order (sqrt : Q -> Q) (db : Database)
  (user_id n : Z) : list Row :=
  flat_map (fun x => map (fun i => mkRow i None)
                         (filter (fun i => id i =? x) (aprovados db)))
           (map fst (recommended_imoveis sqrt (interacoes db) user_id n)).

(** ** Tables used to run the functions *)

Module Tables.
Definition A : Imovel :=
  mkImovel 1 "casa" "Luanda" (10 # 1) (Some 2) (Some 1) (Some (100 # 1)) "aprovado".
Definition B : Imovel :=
  mkImovel 2 "apartamento" "Luanda" (50 # 1) (Some 4) (Some 1) (Some (100 # 1)) "aprovado".
Definition C : Imovel :=
  mkImovel 3 "casa" "Benguela" (10 # 1) (Some 2) (Some 1) (Some (100 # 1)) "aprovado".
Definition D : Imovel :=
  mkImovel 4 "terreno" "Luanda" (5 # 1) None None (Some (900 # 1)) "pendente".

(** User 2 has rows on the listings of user 1 and on the pending
    listing 4. *)
Definition log : list Interacao :=
  [mkInteracao 1 1 "view"; mkInteracao 1 2 "view"; mkInteracao 1 2 "click";
   mkInteracao 2 2 "view"; mkInteracao 2 2 "contact"; mkInteracao 2 1 "view";
   mkInteracao 2 4 "view"].

Definition prefs : Prefs := mkPrefs None None (Some (10 # 1)) (Some (2 # 1)).

Definition db : Database :=
  mkDatabase [mkUsuario 1 (Some prefs); mkUsuario 2 None; mkUsuario 7 None]
             [A; B; C; D] log.


(** The same tables, user 1 holding the record [p]. *)
Definition db_prefs (p : option Prefs) : Database :=
  mkDatabase [mkUsuario 1 p] [A; B; C; D] log.

(** What [update_preferences] stores when both select boxes are left on
    'qualquer'. *)
Definition prefs_qualquer : Prefs :=
  mkPrefs (Some None) (Some None) (Some (100000000 # 1)) (Some (1 # 1)).


(** Users 1 and 2 each have one row, on the same listing. *)
Definition log_gemeos : list Interacao :=
  [mkInteracao 1 10 "view"; mkInteracao 2 10 "view"].
End Tables.

(** ** Writes to the tables *)

(** [AdminInterface.update_property_status] (app.py 433-442):
    UPDATE imoveis SET status = ? WHERE id = ?. *)
Definition update_property_status (db : Database) (x : Z) (new_status : string)
  : Database :=
  mkDatabase
    (usuarios db)
    (map (fun i => if id i =? x
                   then mkImovel (id i) (tipo i) (provincia i) (preco i)
                                 (quartos i) (banheiros i) (area i) new_status
                   else i)
         (imoveis db))
    (interacoes db).

(** [UsuarioInterface.record_interaction] (app.py 865-876): one row is
    added at the end of [interacoes]. *)
Definition record_interaction (db : Database) (u x : Z) (kind : string)
  : Database :=
  mkDatabase (usuarios db) (imoveis db)
             (interacoes db ++ [mkInteracao u x kind]).

(** [AuthSystem.update_user] (app.py 167-182) called with the single key
    ['preferencias'], as [update_preferences] calls it (line 731):
    UPDATE usuarios SET preferencias = json.dumps(value) WHERE id = ?. *)
Definition update_user_preferencias (db : Database) (user_id : Z) (value : Prefs)
  : Database :=
  mkDatabase
    (map (fun u => if usuario u =? user_id
                   then mkUsuario (usuario u) (Some value) else u)
         (usuarios db))
    (imoveis db) (interacoes db).

(** ** The preference form ([UsuarioInterface.update_preferences]) *)

Definition tipos_form : list string :=
  ["qualquer"; "casa"; "apartamento"; "terreno"].

Definition provincias_form : list string :=
  ["qualquer"; "Luanda"; "Benguela"; "Huíla"; "Cabinda"; "Huambo"].

(** [list.index(value)]: the position of the first element equal to [value];
    [None] stands for the ValueError raised when there is none.  The value
    is a string or Python's [None], which equals no string. *)
Fixpoint list_index (l : list string) (value : option string) : option nat :=
  match l with
  | [] => None
  | s :: rest =>
      if eq_scalar s value then Some 0%nat
      else option_map S (list_index rest value)
  end.

(** [current_prefs.get(key, default)]. *)
Definition dict_get {A : Type} (field : option A) (default : A) : A :=
  match field with Some v => v | None => default end.

(** Lines 695-697: the index passed to the type select box. *)
Definition tipo_index (current_prefs : Prefs) : option nat :=
  list_index tipos_form (dict_get (pref_tipo current_prefs) (Some "qualquer")).

(** Lines 703-705: the index passed to the province select box. *)
Definition provincia_index (current_prefs : Prefs) : option nat :=
  list_index provincias_form
             (dict_get (pref_provincia current_prefs) (Some "qualquer")).

(** Lines 724-729: the record built from the submitted form. *)
Definition novas_prefs (tipo_preferido provincia_preferida : string)
  (preco_max quartos_min : Z) : Prefs :=
  mkPrefs
    (Some (if (tipo_preferido =? "qualquer")%string then None
           else Some tipo_preferido))
    (Some (if (provincia_preferida =? "qualquer")%string then None
           else Some provincia_preferida))
    (Some (inject_Z preco_max))
    (Some (inject_Z quartos_min)).

(** ** Favourites ([UsuarioInterface], app.py 878-920) *)

(** The table [favoritos], PRIMARY KEY (usuario_id, imovel_id). *)
Definition same_favorite (u x : Z) (f : Z * Z) : bool :=
  (fst f =? u) && (snd f =? x).

(** SELECT 1 FROM favoritos WHERE usuario_id = ? AND imovel_id = ?. *)
Definition is_favorited (favoritos : list (Z * Z)) (u x : Z) : bool :=
  existsb (same_favorite u x) favoritos.

(** The INSERT raises IntegrityError when the pair is already there; the
    exception is silenced and the table is left as it was. *)
Definition add_favorite (favoritos : list (Z * Z)) (u x : Z) : list (Z * Z) :=
  if existsb (same_favorite u x) favoritos then favoritos
  else favoritos ++ [(u, x)].

Definition remove_favorite (favoritos : list (Z * Z)) (u x : Z) : list (Z * Z) :=
  filter (fun f => negb (same_favorite u x f)) favoritos.

(** Lines 834-841 of [display_properties]: what a press of the favourite
    button of listing [x] does. *)
Definition favorite_button (favoritos : list (Z * Z)) (u x : Z) : list (Z * Z) :=
  if is_favorited favoritos u x then remove_favorite favoritos u x
  else add_favorite favoritos u x.

(** The query of [show_favorites] (app.py 850-855): the listings joined
    with the favourites of user [u], approved ones only.  A pair occurs at
    most once in [favoritos] (primary key), so each listing row is joined at
    most once; the rows are given in table order. *)
Definition show_favorites_query (imoveis : list Imovel)
  (favoritos : list (Z * Z)) (u : Z) : list Imovel :=
  filter (fun i => is_favorited favoritos u (id i)
                   && (status i =? "aprovado")%string)
         imoveis.

(** ** The listing query ([UsuarioInterface.show_properties], app.py 735-759) *)

(** A bound parameter of the query. *)
Inductive Param :=
| PText (s : string)
| PNum (q : Q).

(** The dict [filters]; a key that is not set is [None]. *)
Record Filters := mkFilters {
  filter_tipo : option string;
  filter_provincia : option string;
  filter_preco_max : option Q
}.

(** Truth value of [filters.get(key)]: a missing key and the empty string
    are false, and so is the number 0. *)
Definition truthy_text (v : option string) : bool :=
  match v with
  | Some s => negb (s =? "")%string
  | None => false
  end.

Definition truthy_num (v : option Q) : bool :=
  match v with
  | Some q => negb (Qeq_bool q 0)
  | None => false
  end.

(** Truth value of the dict itself: it has a key. *)
Definition has_key (f : Filters) : bool :=
  match filter_tipo f, filter_provincia f, filter_preco_max f with
  | None, None, None => false
  | _, _, _ => true
  end.

(** The query text and its parameters, as lines 740-754 build them. *)
Definition show_properties_query (filters : option Filters)
  : string * list Param :=
  let query := "SELECT * FROM imoveis WHERE status = 'aprovado'" in
  let params := [] in
  let (query, params) :=
    match filters with
    | Some f =>
        if has_key f then
          let (query, params) :=
            if truthy_text (filter_tipo f)
            then ((query ++ " AND tipo = ?")%string,
                  params ++ [PText (dict_get (filter_tipo f) "")])
            else (query, params) in
          let (query, params) :=
            if truthy_text (filter_provincia f)
            then ((query ++ " AND provincia = ?")%string,
                  params ++ [PText (dict_get (filter_provincia f) "")])
            else (query, params) in
          if truthy_num (filter_preco_max f)
          then ((query ++ " AND preco <= ?")%string,
                params ++ [PNum (dict_get (filter_preco_max f) 0%Q)])
          else (query, params)
        else (query, params)
    | None => (query, params)
    end in
  ((query ++ " ORDER BY data_cadastro DESC LIMIT 50")%string, params).

(** Lines 796-801 of [display_properties]: the dict built from the filter
    widgets. *)
Definition widget_filters (filter_tipo filter_provincia : string)
  (filter_preco_max : Z) : Filters :=
  mkFilters
    (if (filter_tipo =? "todos")%string then None else Some filter_tipo)
    (if (filter_provincia =? "todas")%string then None else Some filter_provincia)
    (Some (inject_Z filter_preco_max)).

(** Number of placeholders [?] of a query text. *)
Fixpoint placeholders (q : string) : nat :=
  match q with
  | EmptyString => 0%nat
  | String c rest =>
      if Ascii.eqb c "?"%char then S (placeholders rest) else placeholders rest
  end.

(** ** Accounts ([Database.init_db], [AuthSystem], setup.py) *)

Module Auth.

(** Row of [usuarios]: id INTEGER PRIMARY KEY AUTOINCREMENT, email UNIQUE,
    role CHECK(role IN ('admin', 'imobiliaria', 'usuario')). *)
Record Conta := mkConta {
  id : Z;
  nome : string;
  email : string;
  senha_hash : string;
  role : string;
  status : string;
  preferencias : option Prefs
}.

(** The table and the largest id it has ever given ([sqlite_sequence]). *)
Record Usuarios := mkUsuarios {
  linhas : list Conta;
  seq : Z
}.

(** The dict returned by a successful [login]. *)
Record SessionUser := mkSessionUser {
  user_id : Z;
  user_nome : string;
  user_email : string;
  user_role : string;
  user_status : string;
  user_preferencias : option Prefs
}.

Inductive LoginResult :=
| LoggedIn (user : SessionUser)
| LoginError (message : string).

Definition roles : list string := ["admin"; "imobiliaria"; "usuario"].

Definition has_email (e : string) (c : Conta) : bool := (email c =? e)%string.

(** The id AUTOINCREMENT gives to a new row. *)
Definition next_id (t : Usuarios) : Z :=
  1 + fold_right Z.max (seq t) (map id (linhas t)).

(** INSERT INTO usuarios (nome, email, senha_hash, role, status); [None] is
    the IntegrityError of a taken email or of a role outside the CHECK. *)
Definition insert_usuario (t : Usuarios)
  (nome email senha_hash role status : string) : option Usuarios :=
  if existsb (has_email email) (linhas t) then None
  else if negb (existsb (String.eqb role) roles) then None
  else Some (mkUsuarios
               (linhas t
                ++ [mkConta (next_id t) nome email senha_hash role status None])
               (next_id t)).

Section Bcrypt.
(** [bcrypt.hashpw(password, salt)] and [bcrypt.checkpw(password, hash)]. *)
Variable hashpw : string -> string -> string.
Variable checkpw : string -> string -> bool.

(** [AuthSystem.register_user] (app.py 121-139); [salt] is the value of
    [bcrypt.gensalt()].  Any exception of the INSERT gives [False].  The
    hashing is inside the same [try]: a password that bcrypt refuses gives
    [False] too, a case [hashpw], which always returns a hash, leaves out. *)
Definition register_user (t : Usuarios) (nome email senha role salt : string)
  : Usuarios * bool :=
  match insert_usuario t nome email (hashpw senha salt) role "ativo" with
  | Some t' => (t', true)
  | None => (t, false)
  end.

(** [AuthSystem.login] (app.py 141-165). *)
Definition login (t : Usuarios) (email senha : string) : LoginResult :=
  match find (has_email email) (linhas t) with
  | Some user =>
      if checkpw senha (senha_hash user) then
        if (status user =? "inativo")%string then LoginError "Usuário inativo"
        else LoggedIn (mkSessionUser (id user) (nome user) (Auth.email user)
                                     (role user) (status user)
                                     (preferencias user))
      else LoginError "Credenciais inválidas"
  | None => LoginError "Credenciais inválidas"
  end.

(** The seeding of the default administrator at the end of [init_db]
    (app.py 93-100) and of [setup_database] (setup.py 65-72); [None] would
    be an exception of the INSERT. *)
Definition init_db (t : Usuarios) (salt : string) : option Usuarios :=
  match find (has_email "admin@imobiliaria.ao") (linhas t) with
  | Some _ => Some t
  | None =>
      insert_usuario t "Administrador" "admin@imobiliaria.ao"
                     (hashpw "admin123" salt) "admin" "ativo"
  end.
End Bcrypt.

(** The columns of [usuarios] the recommender reads. *)
Definition usuario_of_conta (c : Conta) : Usuario :=
  mkUsuario (id c) (preferencias c).

End Auth.

(** * Properties *)

(** ** Lists, [head], sorting *)

Lemma isin_In (x : Z) (l : list Z) : isin x l = true <-> In x l.
Proof.
  unfold isin. rewrite existsb_exists. split.
  - intros [y [Hy Heq]]. apply Z.eqb_eq in Heq. now subst.
  - intros H. exists x. split; [assumption | apply Z.eqb_refl].
Qed.

Lemma isin_not_In (x : Z) (l : list Z) : isin x l = false <-> ~ In x l.
Proof.
  rewrite <- isin_In. destruct (isin x l); split; intro H; congruence.
Qed.

Lemma head_nonneg {A : Type} (n : Z) (l : list A) :
  0 <= n -> head n l = firstn (Z.to_nat n) l.
Proof.
  intros Hn. unfold head. destruct (0 <=? n) eqn:E; [reflexivity | lia].
Qed.

Lemma head_all {A : Type} (n : Z) (l : list A) :
  0 <= n -> (length l <= Z.to_nat n)%nat -> head n l = l.
Proof.
  intros Hn Hl. rewrite head_nonneg by assumption. now apply firstn_all2.
Qed.

Lemma head_length {A : Type} (n : Z) (l : list A) :
  0 <= n -> (length (head n l) <= Z.to_nat n)%nat.
Proof.
  intros Hn. rewrite head_nonneg by assumption. apply firstn_le_length.
Qed.

Lemma firstn_In {A : Type} (x : A) (n : nat) (l : list A) :
  In x (firstn n l) -> In x l.
Proof.
  intros H. rewrite <- (firstn_skipn n l). apply in_or_app. now left.
Qed.

Lemma head_incl {A : Type} (n : Z) (l : list A) : incl (head n l) l.
Proof.
  unfold head. intros x Hx. destruct (0 <=? n); eapply firstn_In; eassumption.
Qed.

Section SortingFacts.
Context {A K : Type} (ltb : K -> K -> bool) (key : A -> K).

Lemma insert_desc_perm (x : A) (l : list A) :
  Permutation (x :: l) (insert_desc ltb key x l).
Proof.
  induction l as [| y ys IH]; simpl.
  - apply Permutation_refl.
  - destruct (ltb (key x) (key y)).
    + eapply perm_trans; [apply perm_swap |]. now apply perm_skip.
    + apply Permutation_refl.
Qed.

Lemma sort_desc_perm (l : list A) : Permutation l (sort_desc ltb key l).
Proof.
  induction l as [| x xs IH]; simpl.
  - apply perm_nil.
  - eapply perm_trans; [| apply insert_desc_perm]. now apply perm_skip.
Qed.

Lemma sort_desc_In (x : A) (l : list A) : In x (sort_desc ltb key l) <-> In x l.
Proof.
  split; apply Permutation_in;
    [apply Permutation_sym |]; apply sort_desc_perm.
Qed.

Lemma sort_desc_length (l : list A) : length (sort_desc ltb key l) = length l.
Proof. symmetry. apply Permutation_length, sort_desc_perm. Qed.
End SortingFacts.

Lemma nlargest_nonpos (n : Z) (df : list (Imovel * Q)) : n <= 0 -> nlargest n df = [].
Proof.
  intros Hn. unfold nlargest. destruct (n <=? 0) eqn:E; [reflexivity | lia].
Qed.

Lemma nlargest_In (n : Z) (df : list (Imovel * Q)) (r : Imovel * Q) :
  In r (nlargest n df) -> In r df.
Proof.
  unfold nlargest. destruct (n <=? 0); [intros [] |].
  intros H. apply firstn_In in H. now apply sort_desc_In in H.
Qed.

Lemma nlargest_length (n : Z) (df : list (Imovel * Q)) :
  0 <= n -> (length (nlargest n df) <= Z.to_nat n)%nat.
Proof.
  intros Hn. unfold nlargest. destruct (n <=? 0); simpl; [lia |].
  apply firstn_le_length.
Qed.

Lemma insert_unique_In (x y : Z) (l : list Z) :
  In y (insert_unique x l) <-> y = x \/ In y l.
Proof.
  induction l as [| z zs IH]; simpl.
  - intuition.
  - destruct (x <? z) eqn:E1; simpl; [intuition |].
    destruct (x =? z) eqn:E2; simpl.
    + apply Z.eqb_eq in E2. subst. intuition.
    + rewrite IH. intuition.
Qed.

Lemma sorted_unique_In (y : Z) (l : list Z) : In y (sorted_unique l) <-> In y l.
Proof.
  induction l as [| x xs IH]; simpl; [reflexivity |].
  rewrite insert_unique_In, IH. intuition.
Qed.

(** ** Users without interaction history *)

Lemma matrix_index_In (interacoes_df : list Interacao) (u : Z) :
  In u (matrix_index interacoes_df) <-> In u (map usuario_id interacoes_df).
Proof. apply sorted_unique_In. Qed.

Lemma collaborative_no_history (sqrt : Q -> Q) (db : Database) (user_id n : Z) :
  ~ In user_id (map usuario_id (interacoes db)) ->
  get_collaborative_recommendations sqrt db user_id n = [].
Proof.
  intros Hno. unfold get_collaborative_recommendations.
  destruct (interacoes db) as [| r rs] eqn:Hlog; [reflexivity |].
  destruct (aprovados db) as [| i cat] eqn:Hcat; [reflexivity |].
  assert (Hidx : isin user_id (matrix_index (r :: rs)) = false).
  { apply isin_not_In. now rewrite matrix_index_In. }
  now rewrite Hidx.
Qed.

Lemma hybrid_collab_empty (sqrt : Q -> Q) (db : Database) (user_id n : Z) :
  get_collaborative_recommendations sqrt db user_id n = [] ->
  get_hybrid_recommendations sqrt db user_id n
  = get_content_based_recommendations sqrt db user_id n.
Proof.
  intros Hk. unfold get_hybrid_recommendations. rewrite Hk.
  now destruct (get_content_based_recommendations sqrt db user_id n).
Qed.

(** C5.  A user with no row in the interaction log gets an empty
    collaborative result (no fallback), and the hybrid result is then the
    content-based result. *)
Theorem cold_start_collaborative_empty
  (sqrt : Q -> Q) (db : Database) (user_id n : Z) :
  ~ In user_id (map usuario_id (interacoes db)) ->
  get_collaborative_recommendations sqrt db user_id n = [] /\
  get_hybrid_recommendations sqrt db user_id n
  = get_content_based_recommendations sqrt db user_id n.
Proof.
  intros Hno.
  pose proof (collaborative_no_history sqrt db user_id n Hno) as Hk.
  split; [exact Hk | now apply hybrid_collab_empty].
Qed.

Lemma cold_start_collaborative_empty_witness :
  ~ In 7 (map usuario_id (interacoes Tables.db)) /\
  get_collaborative_recommendations sqrt_approx Tables.db 7 5 = [] /\
  get_hybrid_recommendations sqrt_approx Tables.db 7 5
  = get_content_based_recommendations sqrt_approx Tables.db 7 5.
Proof.
  assert (H : ~ In 7 (map usuario_id (interacoes Tables.db))).
  { simpl. intros [E | [E | [E | [E | [E | [E | [E | []]]]]]]]; discriminate E. }
  split; [exact H | exact (cold_start_collaborative_empty sqrt_approx Tables.db 7 5 H)].
Defined.

(** ** Negative [n_recommendations] *)

Lemma content_nonpos (sqrt : Q -> Q) (db : Database) (user_id n : Z) :
  n <= 0 -> get_content_based_recommendations sqrt db user_id n = [].
Proof.
  intros Hn. unfold get_content_based_recommendations.
  destruct (aprovados db); [reflexivity |].
  now rewrite nlargest_nonpos.
Qed.

Lemma hybrid_content_empty (sqrt : Q -> Q) (db : Database) (user_id n : Z) :
  get_content_based_recommendations sqrt db user_id n = [] ->
  get_hybrid_recommendations sqrt db user_id n
  = get_collaborative_recommendations sqrt db user_id n.
Proof.
  intros Hc. unfold get_hybrid_recommendations. rewrite Hc.
  now destruct (get_collaborative_recommendations sqrt db user_id n).
Qed.

(** C9, as the claim states it, fails: with n = -1 the call returns a frame
    (here a non-empty one) instead of raising a validation error. *)
Lemma negative_n_returns :
  -1 < 0 /\
  recommend sqrt_approx Tables.db 1 (-1)
  = Returned [mkRow Tables.A None; mkRow Tables.B None] /\
  forall field, recommend sqrt_approx Tables.db 1 (-1) <> ValidationError field.
Proof.
  split; [lia |]. split; [vm_compute; reflexivity | intros field H; discriminate H].
Qed.

(** C9, amended.  For a negative n no validation error is raised: the content
    scorer returns the empty frame and the call returns the collaborative
    result, which [head] computes by dropping the last [-n] entries of the
    frequency ranking. *)
Theorem negative_n_no_validation
  (sqrt : Q -> Q) (db : Database) (user_id n : Z) :
  n < 0 ->
  get_content_based_recommendations sqrt db user_id n = [] /\
  recommend sqrt db user_id n
  = Returned (get_collaborative_recommendations sqrt db user_id n) /\
  forall l : list (Z * Z),
    head n l = firstn (length l - Z.to_nat (- n))%nat l.
Proof.
  intros Hn.
  assert (Hc : get_content_based_recommendations sqrt db user_id n = [])
    by (apply content_nonpos; lia).
  split; [exact Hc |]. split.
  - unfold recommend. now rewrite hybrid_content_empty.
  - intros l. unfold head. destruct (0 <=? n) eqn:E; [lia | reflexivity].
Qed.

Lemma negative_n_no_validation_witness :
  -1 < 0 /\
  get_content_based_recommendations sqrt_approx Tables.db 1 (-1) = [] /\
  recommend sqrt_approx Tables.db 1 (-1)
  = Returned (get_collaborative_recommendations sqrt_approx Tables.db 1 (-1)).
Proof.
  assert (H : -1 < 0) by lia.
  destruct (negative_n_no_validation sqrt_approx Tables.db 1 (-1) H) as [Hc [Hr _]].
  split; [exact H | split; [exact Hc | exact Hr]].
Defined.

(** ** Listing ids are a key of the catalog *)

(** A key of a table stays a key of any selection of its rows. *)
Lemma NoDup_map_filter {T Key : Type} (key : T -> Key) (keep : T -> bool) :
  forall rows, NoDup (map key rows) -> NoDup (map key (filter keep rows)).
Proof.
  intros rows Hkey. induction rows as [| x xs IH]; simpl; [constructor |].
  simpl in Hkey. apply NoDup_cons_iff in Hkey. destruct Hkey as [Hnotin Hnd].
  destruct (keep x); simpl; [| now apply IH].
  constructor; [| now apply IH].
  intros Hin. apply Hnotin. apply in_map_iff in Hin.
  destruct Hin as [z [Hz Hin]]. apply filter_In in Hin.
  apply in_map_iff. exists z. tauto.
Qed.

Lemma NoDup_firstn {A : Type} (n : nat) (l : list A) :
  NoDup l -> NoDup (firstn n l).
Proof.
  intros H. rewrite <- (firstn_skipn n l) in H.
  now apply NoDup_app_remove_r in H.
Qed.

Lemma NoDup_head {A : Type} (n : Z) (l : list A) : NoDup l -> NoDup (head n l).
Proof. intros H. unfold head. destruct (0 <=? n); now apply NoDup_firstn. Qed.

Lemma NoDup_map_combine {A B C : Type} (f : A -> C) (l : list A) (l' : list B) :
  NoDup (map f l) -> NoDup (map (fun r => f (fst r)) (combine l l')).
Proof.
  revert l'. induction l as [| x xs IH]; intros l' H; simpl; [constructor |].
  destruct l' as [| y ys]; simpl; [constructor |].
  inversion H as [| z zs Hnotin Hnd]; subst.
  constructor; [| now apply IH].
  intros Hin. apply Hnotin. apply in_map_iff in Hin.
  destruct Hin as [[a b] [Hab Hin]]. simpl in Hab.
  apply in_combine_l in Hin. apply in_map_iff. now exists a.
Qed.

Lemma aprovados_NoDup (db : Database) :
  NoDup (map id (imoveis db)) -> NoDup (map id (aprovados db)).
Proof. apply NoDup_map_filter. Qed.

Lemma filter_prefs_NoDup (p : Prefs) (df : list (Imovel * Q)) :
  NoDup (map (fun r => id (fst r)) df) ->
  NoDup (map (fun r => id (fst r)) (filter_prefs p df)).
Proof.
  intros H. unfold filter_prefs.
  destruct (pref_tipo p), (pref_provincia p);
    repeat apply NoDup_map_filter; assumption.
Qed.

Lemma nlargest_NoDup (n : Z) (df : list (Imovel * Q)) :
  NoDup (map (fun r => id (fst r)) df) ->
  NoDup (map (fun r => id (fst r)) (nlargest n df)).
Proof.
  intros H. unfold nlargest. destruct (n <=? 0); [constructor |].
  rewrite <- firstn_map. apply NoDup_firstn.
  eapply Permutation_NoDup; [| exact H].
  apply Permutation_map, sort_desc_perm.
Qed.

Lemma content_ids_NoDup (sqrt : Q -> Q) (db : Database) (user_id n : Z) :
  NoDup (map id (imoveis db)) ->
  NoDup (map row_id (get_content_based_recommendations sqrt db user_id n)).
Proof.
  intros H. apply aprovados_NoDup in H.
  unfold get_content_based_recommendations.
  destruct (aprovados db) as [| i cat] eqn:Hcat; [constructor |].
  rewrite map_map. unfold row_id. simpl imovel.
  apply nlargest_NoDup, filter_prefs_NoDup. now apply NoDup_map_combine.
Qed.

Lemma content_length (sqrt : Q -> Q) (db : Database) (user_id n : Z) :
  0 <= n ->
  (length (get_content_based_recommendations sqrt db user_id n) <= Z.to_nat n)%nat.
Proof.
  intros Hn. unfold get_content_based_recommendations.
  destruct (aprovados db); simpl; [lia |].
  rewrite length_map. now apply nlargest_length.
Qed.

Lemma isin_filter_length (ids : list Z) (cat : list Imovel) :
  NoDup (map id cat) ->
  (length (filter (fun i => isin (id i) ids) cat) <= length ids)%nat.
Proof.
  intros H. rewrite <- (length_map id).
  apply NoDup_incl_length; [now apply NoDup_map_filter |].
  intros x Hx. apply in_map_iff in Hx. destruct Hx as [i [Hi Hin]].
  apply filter_In in Hin. subst. now apply isin_In.
Qed.

Lemma collab_shape (sqrt : Q -> Q) (db : Database) (user_id n : Z) :
  get_collaborative_recommendations sqrt db user_id n = [] \/
  get_collaborative_recommendations sqrt db user_id n
  = map (fun i => mkRow i None)
      (filter (fun i => isin (id i)
                 (map fst (recommended_imoveis sqrt (interacoes db) user_id n)))
              (aprovados db)).
Proof.
  unfold get_collaborative_recommendations.
  destruct (interacoes db) as [| r rs]; [now left |].
  destruct (aprovados db) as [| i cat]; [now left |].
  destruct (negb (isin user_id (matrix_index (r :: rs)))); [now left | now right].
Qed.

Lemma collab_ids_NoDup (sqrt : Q -> Q) (db : Database) (user_id n : Z) :
  NoDup (map id (imoveis db)) ->
  NoDup (map row_id (get_collaborative_recommendations sqrt db user_id n)).
Proof.
  intros H. apply aprovados_NoDup in H.
  destruct (collab_shape sqrt db user_id n) as [E | E]; rewrite E; [constructor |].
  rewrite map_map. unfold row_id. simpl imovel.
  now apply NoDup_map_filter.
Qed.

Lemma collab_length (sqrt : Q -> Q) (db : Database) (user_id n : Z) :
  0 <= n -> NoDup (map id (imoveis db)) ->
  (length (get_collaborative_recommendations sqrt db user_id n) <= Z.to_nat n)%nat.
Proof.
  intros Hn H. apply aprovados_NoDup in H.
  destruct (collab_shape sqrt db user_id n) as [E | E]; rewrite E; simpl; [lia |].
  rewrite length_map.
  eapply Nat.le_trans; [now apply isin_filter_length |].
  rewrite length_map. unfold recommended_imoveis. now apply head_length.
Qed.

(** ** The hybrid blend *)

Lemma drop_duplicates_NoDup (seen : list Z) (l : list Row) :
  NoDup (map row_id l) ->
  drop_duplicates seen l = filter (fun r => negb (isin (row_id r) seen)) l.
Proof.
  revert seen. induction l as [| r rs IH]; intros seen H; simpl; [reflexivity |].
  inversion H as [| x xs Hnotin Hnd]; subst.
  destruct (isin (row_id r) seen) eqn:E; simpl; [now apply IH |].
  f_equal. rewrite IH by assumption.
  apply filter_ext_in. intros r' Hr'. simpl.
  destruct (row_id r' =? row_id r) eqn:E'; [| reflexivity].
  apply Z.eqb_eq in E'. exfalso. apply Hnotin. rewrite <- E'.
  now apply in_map.
Qed.

Lemma filter_all {A : Type} (p : A -> bool) (l : list A) :
  (forall x, In x l -> p x = true) -> filter p l = l.
Proof.
  induction l as [| x xs IH]; simpl; intros H; [reflexivity |].
  rewrite (H x) by now left. f_equal. apply IH. intros y Hy. apply H. now right.
Qed.

Lemma filter_none {A : Type} (p : A -> bool) (l : list A) :
  (forall x, In x l -> p x = false) -> filter p l = [].
Proof.
  induction l as [| x xs IH]; simpl; intros H; [reflexivity |].
  rewrite (H x) by now left. apply IH. intros y Hy. apply H. now right.
Qed.

Lemma isin_ext (x : Z) (l l' : list Z) :
  (In x l <-> In x l') -> isin x l = isin x l'.
Proof.
  intros H. destruct (isin x l') eqn:E.
  - apply isin_In, H, isin_In, E.
  - apply isin_not_In. intros Hin. apply H, isin_In in Hin. congruence.
Qed.

Lemma drop_duplicates_app (seen : list Z) (c k : list Row) :
  NoDup (map row_id c) ->
  (forall x, In x (map row_id c) -> ~ In x seen) ->
  drop_duplicates seen (c ++ k)
  = c ++ drop_duplicates (rev (map row_id c) ++ seen) k.
Proof.
  revert seen. induction c as [| r rs IH]; intros seen Hnd Hseen; simpl;
    [reflexivity |].
  inversion Hnd as [| x xs Hnotin Hnd']; subst.
  assert (E : isin (row_id r) seen = false).
  { apply isin_not_In, Hseen. now left. }
  rewrite E. f_equal. rewrite IH.
  - now rewrite <- app_assoc.
  - assumption.
  - intros x Hx [Hin | Hin].
    + subst x. contradiction.
    + apply (Hseen x); [now right | assumption].
Qed.

(** Content rows come first, then the collaborative rows whose id is new. *)
Lemma drop_duplicates_blend (c k : list Row) :
  NoDup (map row_id c) -> NoDup (map row_id k) ->
  drop_duplicates [] (c ++ k)
  = c ++ filter (fun r => negb (isin (row_id r) (map row_id c))) k.
Proof.
  intros Hc Hk.
  rewrite drop_duplicates_app by (assumption || intros x _ []).
  rewrite drop_duplicates_NoDup by assumption. f_equal.
  apply filter_ext. intros r. f_equal. apply isin_ext.
  rewrite app_nil_r. symmetry. apply in_rev.
Qed.

Lemma blend_ids_NoDup (c k : list Row) :
  NoDup (map row_id c) -> NoDup (map row_id k) ->
  NoDup (map row_id
           (c ++ filter (fun r => negb (isin (row_id r) (map row_id c))) k)).
Proof.
  intros Hc Hk. rewrite map_app.
  apply NoDup_app; [assumption | now apply NoDup_map_filter |].
  intros x Hx Hin. apply in_map_iff in Hin. destruct Hin as [r [Hr Hin]].
  apply filter_In in Hin. destruct Hin as [_ Hneg].
  subst x. apply isin_In in Hx. rewrite Hx in Hneg. discriminate Hneg.
Qed.

Lemma hybrid_ids_NoDup (sqrt : Q -> Q) (db : Database) (user_id n : Z) :
  NoDup (map id (imoveis db)) ->
  NoDup (map row_id (get_hybrid_recommendations sqrt db user_id n)).
Proof.
  intros H.
  pose proof (content_ids_NoDup sqrt db user_id n H) as Hc.
  pose proof (collab_ids_NoDup sqrt db user_id n H) as Hk.
  unfold get_hybrid_recommendations.
  destruct (get_content_based_recommendations sqrt db user_id n) as [| c cs];
    destruct (get_collaborative_recommendations sqrt db user_id n) as [| k ks];
    try assumption.
  rewrite drop_duplicates_blend by assumption.
  unfold head. destruct (0 <=? n); rewrite <- firstn_map;
    apply NoDup_firstn, blend_ids_NoDup; assumption.
Qed.

(** C4.  The hybrid blend: empty when both results are empty; the other
    result, cut to n, when one is empty; otherwise the content rows in
    their order followed by the collaborative rows, the first row of each id
    kept, cut to n.  A listing of both results appears once, at its content
    position. *)
Theorem hybrid_blend (sqrt : Q -> Q) (db : Database) (user_id n : Z) :
  0 <= n ->
  NoDup (map id (imoveis db)) ->
  let content_recs := get_content_based_recommendations sqrt db user_id n in
  let collab_recs := get_collaborative_recommendations sqrt db user_id n in
  let hybrid := get_hybrid_recommendations sqrt db user_id n in
  (content_recs = [] -> collab_recs = [] -> hybrid = []) /\
  (content_recs = [] -> hybrid = head n collab_recs) /\
  (collab_recs = [] -> hybrid = head n content_recs) /\
  (content_recs <> [] -> collab_recs <> [] ->
   hybrid = head n (drop_duplicates [] (content_recs ++ collab_recs))) /\
  drop_duplicates [] (content_recs ++ collab_recs)
  = content_recs
    ++ filter (fun r => negb (isin (row_id r) (map row_id content_recs)))
         collab_recs /\
  (forall (i : nat) (r : Row),
      nth_error content_recs i = Some r ->
      In (row_id r) (map row_id collab_recs) ->
      nth_error hybrid i = Some r /\
      count_occ Z.eq_dec (map row_id hybrid) (row_id r) = 1%nat).
Proof.
  intros Hn Hkey content_recs collab_recs hybrid.
  pose proof (content_ids_NoDup sqrt db user_id n Hkey) as Hc.
  pose proof (collab_ids_NoDup sqrt db user_id n Hkey) as Hk.
  pose proof (content_length sqrt db user_id n Hn) as Lc.
  pose proof (collab_length sqrt db user_id n Hn Hkey) as Lk.
  pose proof (hybrid_ids_NoDup sqrt db user_id n Hkey) as Hh.
  fold content_recs in Hc, Lc. fold collab_recs in Hk, Lk. fold hybrid in Hh.
  assert (Hboth : content_recs <> [] -> collab_recs <> [] ->
                  hybrid = head n (drop_duplicates [] (content_recs ++ collab_recs))).
  { intros Hc0 Hk0. unfold hybrid, get_hybrid_recommendations.
    fold content_recs. fold collab_recs.
    destruct content_recs; [congruence |]. destruct collab_recs; [congruence |].
    reflexivity. }
  assert (Hblend := drop_duplicates_blend content_recs collab_recs Hc Hk).
  assert (Hpos : forall (i : nat) (r : Row),
             nth_error content_recs i = Some r ->
             In (row_id r) (map row_id collab_recs) ->
             hybrid = content_recs
                      ++ firstn (Z.to_nat n - length content_recs)
                           (filter (fun r => negb (isin (row_id r)
                                                     (map row_id content_recs)))
                                   collab_recs)).
  { intros i r Hi Hin.
    assert (Hc0 : content_recs <> []).
    { intros E. rewrite E in Hi. destruct i; discriminate Hi. }
    assert (Hk0 : collab_recs <> []).
    { intros E. rewrite E in Hin. exact Hin. }
    rewrite (Hboth Hc0 Hk0), Hblend, head_nonneg by assumption.
    now rewrite firstn_app, (firstn_all2 content_recs Lc). }
  split; [| split; [| split; [| split; [| split]]]].
  - intros Ec Ek. unfold hybrid. rewrite hybrid_content_empty by exact Ec. exact Ek.
  - intros Ec. unfold hybrid. rewrite hybrid_content_empty by exact Ec.
    symmetry. now apply head_all.
  - intros Ek. unfold hybrid. rewrite hybrid_collab_empty by exact Ek.
    symmetry. now apply head_all.
  - exact Hboth.
  - exact Hblend.
  - intros i r Hi Hin. pose proof (Hpos i r Hi Hin) as E. split.
    + rewrite E, nth_error_app1; [assumption |].
      apply nth_error_Some. congruence.
    + apply NoDup_count_occ'; [exact Hh |].
      apply in_map. rewrite E. apply in_or_app. left.
      eapply nth_error_In. eassumption.
Qed.

Lemma hybrid_blend_witness :
  0 <= 2 /\
  NoDup (map id (imoveis Tables.db)) /\
  get_hybrid_recommendations sqrt_approx Tables.db 1 2
  = head 2 (drop_duplicates []
              (get_content_based_recommendations sqrt_approx Tables.db 1 2
               ++ get_collaborative_recommendations sqrt_approx Tables.db 1 2)) /\
  map row_id (get_hybrid_recommendations sqrt_approx Tables.db 1 2) = [1; 3].
Proof.
  assert (Hn : 0 <= 2) by lia.
  assert (Hkey : NoDup (map id (imoveis Tables.db))).
  { simpl. repeat (constructor; [simpl; lia |]). constructor. }
  split; [exact Hn |]. split; [exact Hkey |]. split.
  - destruct (hybrid_blend sqrt_approx Tables.db 1 2 Hn Hkey)
      as [_ [_ [_ [Hboth _]]]].
    apply Hboth; vm_compute; discriminate.
  - vm_compute. reflexivity.
Defined.

(** ** Rows of the collaborative result *)

Lemma collab_In (sqrt : Q -> Q) (db : Database) (user_id n : Z) (i : Imovel) :
  In user_id (map usuario_id (interacoes db)) ->
  (In (mkRow i None) (get_collaborative_recommendations sqrt db user_id n) <->
   In i (aprovados db) /\
   In (id i) (map fst (recommended_imoveis sqrt (interacoes db) user_id n))).
Proof.
  intros Hu. unfold get_collaborative_recommendations.
  destruct (interacoes db) as [| r rs] eqn:Hlog; [destruct Hu |].
  destruct (aprovados db) as [| a cat] eqn:Hcat.
  { simpl. tauto. }
  assert (Hidx : isin user_id (matrix_index (r :: rs)) = true).
  { apply isin_In. now rewrite matrix_index_In. }
  rewrite Hidx. simpl negb. cbv iota. split.
  - intros Hin. apply in_map_iff in Hin. destruct Hin as [j [Hj Hin]].
    injection Hj as ->. apply filter_In in Hin.
    destruct Hin as [Hin Hsel]. split; [exact Hin | now apply isin_In].
  - intros [Hin Hsel]. apply in_map_iff. exists i.
    split; [reflexivity |]. apply filter_In.
    split; [exact Hin | now apply isin_In].
Qed.

(** ** The feature normalizer *)













(** *** The normalizer on binary64 numbers *)





(** A constant column whose rounded mean is the constant itself: the three
    approved listings of [Tables.db] have one bathroom each, the fitted mean
    is 1 and the standardized value is 0.0 in every row. *)
Example constant_bathrooms_binary64_zero :
  Float64.column_at 2
    (Float64.fit_transform (Float64.imoveis_features [Tables.A; Tables.B; Tables.C]))
  = [PrimFloat.zero; PrimFloat.zero; PrimFloat.zero].
Proof. vm_compute. reflexivity. Qed.



(** ** The preference vector *)




(** Fitting the scaler again on the preference vector alone would give the
    zero vector; the code does not: on the three approved listings of
    [Tables.db] the price slot of the standardized preference vector is not
    0. *)
Example preference_vector_not_refitted :
  fit_transform sqrt_approx [user_vector Tables.prefs] = [[0; 0; 0; 0]%Q] /\
  exists v, nth_error
              (nth 0 (transform (fit sqrt_approx
                                   (imoveis_features [Tables.A; Tables.B; Tables.C]))
                                [user_vector Tables.prefs]) []) 0
            = Some v /\ ~ v == 0.
Proof.
  split; [vm_compute; reflexivity |].
  eexists. split; [vm_compute; reflexivity |].
  intros H. vm_compute in H. discriminate H.
Qed.

(** ** Resolution of the stored preferences *)

Lemma content_unfold (sqrt : Q -> Q) (db : Database) (user_id n : Z)
  (i : Imovel) (rest : list Imovel) :
  aprovados db = i :: rest ->
  get_content_based_recommendations sqrt db user_id n
  = let user_prefs := user_prefs_of (select_preferencias db user_id) in
    map (fun r => mkRow (fst r) (Some (snd r)))
        (nlargest n
           (filter_prefs user_prefs
              (combine (i :: rest) (similarities sqrt (i :: rest) user_prefs)))).
Proof.
  intros H. unfold get_content_based_recommendations. now rewrite H.
Qed.









(** ** The type and province filters *)

Lemma filter_prefs_In (p : Prefs) (df : list (Imovel * Q)) (r : Imovel * Q) :
  In r (filter_prefs p df) ->
  In r df /\
  (forall v, pref_tipo p = Some v -> eq_scalar (tipo (fst r)) v = true) /\
  (forall v, pref_provincia p = Some v -> eq_scalar (provincia (fst r)) v = true).
Proof.
  unfold filter_prefs. intros H.
  destruct (pref_tipo p) as [t |], (pref_provincia p) as [pr |];
    repeat (apply filter_In in H; destruct H as [H ?]);
    (split; [exact H | split; intros v E; try discriminate E;
                       injection E as <-; assumption]).
Qed.

(** With a non-null type (resp. province) every returned listing has it. *)
Lemma content_filter_sound (sqrt : Q -> Q) (db : Database) (user_id n : Z) (r : Row) :
  In r (get_content_based_recommendations sqrt db user_id n) ->
  let user_prefs := user_prefs_of (select_preferencias db user_id) in
  In (imovel r) (aprovados db) /\
  (forall t, pref_tipo user_prefs = Some (Some t) -> tipo (imovel r) = t) /\
  (forall t, pref_provincia user_prefs = Some (Some t) -> provincia (imovel r) = t).
Proof.
  intros Hin user_prefs.
  destruct (aprovados db) as [| i rest] eqn:Hcat.
  { unfold get_content_based_recommendations in Hin. rewrite Hcat in Hin.
    destruct Hin. }
  rewrite (content_unfold sqrt db user_id n i rest Hcat) in Hin.
  cbv zeta in Hin. fold user_prefs in Hin.
  apply in_map_iff in Hin. destruct Hin as [x [Hx Hin]]. subst r. simpl imovel.
  apply nlargest_In, filter_prefs_In in Hin. destruct Hin as [Hin [Ht Hp]].
  split; [| split].
  - destruct x as [a q]. now apply in_combine_l in Hin.
  - intros t E. specialize (Ht _ E). now apply String.eqb_eq in Ht.
  - intros t E. specialize (Hp _ E). now apply String.eqb_eq in Hp.
Qed.

Lemma filter_prefs_null_tipo (p : Prefs) (df : list (Imovel * Q)) :
  pref_tipo p = Some None -> filter_prefs p df = [].
Proof.
  intros H. unfold filter_prefs. rewrite H.
  rewrite (filter_none (fun r => eq_scalar (tipo (fst r)) None) df)
    by reflexivity.
  now destruct (pref_provincia p).
Qed.

Lemma content_null_tipo (sqrt : Q -> Q) (db : Database) (user_id n : Z)
  (p : Prefs) (rest : list (option Prefs)) :
  select_preferencias db user_id = Some p :: rest ->
  pref_tipo p = Some None ->
  get_content_based_recommendations sqrt db user_id n = [].
Proof.
  intros Hsel Hnull. unfold get_content_based_recommendations.
  destruct (aprovados db) as [| i cat]; [reflexivity |].
  rewrite Hsel. simpl user_prefs_of.
  rewrite filter_prefs_null_tipo by assumption.
  unfold nlargest. destruct (n <=? 0); [reflexivity |].
  simpl. now rewrite firstn_nil.
Qed.

(** C1, at the failing input.  With the record that the preference form
    stores for 'qualquer' (type and province null) the three approved
    listings are all dropped: the content result is empty, while the same
    tables without the two keys give the three listings. *)
Theorem null_preference_drops_every_listing :
  forall sqrt : Q -> Q,
    aprovados (Tables.db_prefs (Some Tables.prefs_qualquer))
    = [Tables.A; Tables.B; Tables.C] /\
    get_content_based_recommendations sqrt
      (Tables.db_prefs (Some Tables.prefs_qualquer)) 1 5 = [] /\
    map imovel
      (get_content_based_recommendations sqrt_approx
         (Tables.db_prefs
            (Some (mkPrefs None None (Some (100000000 # 1)) (Some (1 # 1))))) 1 5)
    = [Tables.B; Tables.A; Tables.C].
Proof.
  intros sqrt. split; [reflexivity |]. split.
  - now apply (content_null_tipo sqrt _ 1 5 Tables.prefs_qualquer []).
  - vm_compute. reflexivity.
Qed.

(** ** The frequency ranking ([value_counts]) *)

Section SortedDescending.
Context {A K : Type} (ltb : K -> K -> bool) (key : A -> K).
Variable le : K -> K -> Prop.
Hypothesis le_trans : forall a b c, le a b -> le b c -> le a c.
Hypothesis ltb_true : forall a b, ltb a b = true -> le a b.
Hypothesis ltb_false : forall a b, ltb a b = false -> le b a.

Lemma insert_desc_sorted (x : A) (l : list A) :
  StronglySorted (fun a b => le (key b) (key a)) l ->
  StronglySorted (fun a b => le (key b) (key a)) (insert_desc ltb key x l).
Proof.
  induction l as [| y ys IH]; intros Hs; simpl.
  - constructor; constructor.
  - inversion Hs as [| z zs Hys Hall]; subst.
    destruct (ltb (key x) (key y)) eqn:E.
    + constructor; [now apply IH |].
      apply Forall_forall. intros z Hz.
      apply (Permutation_in z (Permutation_sym (insert_desc_perm ltb key x ys)))
        in Hz.
      destruct Hz as [<- | Hz].
      * now apply ltb_true.
      * rewrite Forall_forall in Hall. now apply Hall.
    + constructor; [assumption |].
      constructor; [now apply ltb_false |].
      apply Forall_forall. intros z Hz.
      rewrite Forall_forall in Hall.
      apply (le_trans _ (key y)); [now apply Hall | now apply ltb_false].
Qed.

Lemma sort_desc_sorted (l : list A) :
  StronglySorted (fun a b => le (key b) (key a)) (sort_desc ltb key l).
Proof.
  induction l as [| x xs IH]; simpl; [constructor |].
  now apply insert_desc_sorted.
Qed.
End SortedDescending.

Lemma unique_In (x : Z) (l : list Z) : In x (unique l) <-> In x l.
Proof.
  induction l as [| y ys IH]; simpl; [reflexivity |].
  rewrite filter_In, IH. split.
  - intros [H | [H _]]; auto.
  - intros [H | H]; [now left |].
    destruct (Z.eq_dec y x) as [E | E]; [now left | right].
    split; [assumption |]. apply negb_true_iff, Z.eqb_neq. congruence.
Qed.

Lemma unique_NoDup (l : list Z) : NoDup (unique l).
Proof.
  induction l as [| y ys IH]; simpl; constructor.
  - rewrite filter_In. intros [_ H].
    now rewrite Z.eqb_refl in H.
  - now apply NoDup_filter.
Qed.

Lemma value_counts_keys (l : list Z) :
  Permutation (map fst (value_counts l)) (unique l).
Proof.
  unfold value_counts. eapply perm_trans.
  - apply Permutation_map, Permutation_sym, sort_desc_perm.
  - rewrite map_map. simpl. rewrite map_id. apply Permutation_refl.
Qed.

Lemma value_counts_NoDup (l : list Z) : NoDup (map fst (value_counts l)).
Proof.
  eapply Permutation_NoDup;
    [apply Permutation_sym, value_counts_keys | apply unique_NoDup].
Qed.

Lemma value_counts_In (l : list Z) (x c : Z) :
  In (x, c) (value_counts l) <-> In x l /\ c = count_of x l.
Proof.
  unfold value_counts. rewrite sort_desc_In, in_map_iff. split.
  - intros [y [Hy Hin]]. injection Hy as -> <-. now rewrite <- unique_In.
  - intros [Hin ->]. exists x. now rewrite unique_In.
Qed.

Lemma value_counts_sorted (l : list Z) :
  StronglySorted (fun a b => snd b <= snd a) (value_counts l).
Proof.
  unfold value_counts.
  apply (sort_desc_sorted Z.ltb snd Z.le).
  - intros a b c. apply Z.le_trans.
  - intros a b H. apply Z.ltb_lt in H. lia.
  - intros a b H. apply Z.ltb_ge in H. exact H.
Qed.

Lemma head_map {A B : Type} (f : A -> B) (n : Z) (l : list A) :
  map f (head n l) = head n (map f l).
Proof.
  unfold head. rewrite length_map.
  destruct (0 <=? n); symmetry; apply firstn_map.
Qed.

Lemma recommended_imoveis_NoDup (sqrt : Q -> Q) (log : list Interacao) (u n : Z) :
  NoDup (map fst (recommended_imoveis sqrt log u n)).
Proof.
  unfold recommended_imoveis. rewrite head_map.
  apply NoDup_head, value_counts_NoDup.
Qed.

(** ** The collaborative result *)

Lemma collab_eq (sqrt : Q -> Q) (db : Database) (user_id n : Z) :
  In user_id (map usuario_id (interacoes db)) ->
  get_collaborative_recommendations sqrt db user_id n
  = map (fun i => mkRow i None)
      (filter (fun i => isin (id i)
                 (map fst (recommended_imoveis sqrt (interacoes db) user_id n)))
              (aprovados db)).
Proof.
  intros Hu. unfold get_collaborative_recommendations.
  destruct (interacoes db) as [| r rs] eqn:Hlog; [destruct Hu |].
  destruct (aprovados db) as [| a cat] eqn:Hcat; [reflexivity |].
  assert (Hidx : isin user_id (matrix_index (r :: rs)) = true).
  { apply isin_In. now rewrite matrix_index_In. }
  now rewrite Hidx.
Qed.

Lemma filter_or_perm {A : Type} (p q : A -> bool) (l : list A) :
  (forall a, p a = true -> q a = false) ->
  Permutation (filter (fun a => p a || q a) l) (filter p l ++ filter q l).
Proof.
  intros Hpq. induction l as [| a l IH]; simpl; [apply perm_nil |].
  destruct (p a) eqn:Ep; simpl.
  - rewrite (Hpq a Ep). now apply perm_skip.
  - destruct (q a); [| exact IH].
    now apply Permutation_cons_app.
Qed.

(** Selecting the listings of a set of ids gives the same rows as looking the
    ids up one by one; only the order differs. *)
Lemma isin_filter_perm (ids : list Z) (cat : list Imovel) :
  NoDup ids ->
  Permutation
    (map (fun i => mkRow i None) (filter (fun i => isin (id i) ids) cat))
    (flat_map (fun x => map (fun i => mkRow i None)
                            (filter (fun i => id i =? x) cat)) ids).
Proof.
  induction ids as [| x xs IH]; intros Hnd; simpl.
  - rewrite filter_none by reflexivity. apply perm_nil.
  - inversion Hnd as [| y ys Hnotin Hnd']; subst.
    eapply perm_trans.
    + apply Permutation_map.
      apply (filter_or_perm (fun i => id i =? x) (fun i => isin (id i) xs)).
      intros a Ha. apply Z.eqb_eq in Ha. apply isin_not_In. now rewrite Ha.
    + rewrite map_app. apply Permutation_app_head. now apply IH.
Qed.

(** C2, as the claim states it, fails: the rows come back in catalog order,
    not in the order of the frequency ranking. *)
Lemma collaborative_not_frequency_order :
  map fst (recommended_imoveis sqrt_approx (interacoes Tables.db) 1 2) = [2; 1] /\
  map row_id (spec_collaborative_order sqrt_approx Tables.db 1 2) = [2; 1] /\
  map row_id (get_collaborative_recommendations sqrt_approx Tables.db 1 2) = [1; 2] /\
  get_collaborative_recommendations sqrt_approx Tables.db 1 2
  <> spec_collaborative_order sqrt_approx Tables.db 1 2.
Proof.
  split; [vm_compute; reflexivity |]. split; [vm_compute; reflexivity |].
  split; [vm_compute; reflexivity |].
  intros H. apply (f_equal (map row_id)) in H. vm_compute in H. discriminate H.
Qed.

(** C2, amended.  For a user with history the result is the approved
    listings whose id is among the first n of the frequency ranking of the
    neighbours' rows, in catalog row order; it has the rows the frequency
    order would give, ids of listings that are not approved being dropped.
    The ranking lists every id of the neighbours' rows once, with its count,
    by descending count; nothing is stated on the order among ids of equal
    count. *)
Theorem collaborative_catalog_order
  (sqrt : Q -> Q) (db : Database) (user_id n : Z) :
  In user_id (map usuario_id (interacoes db)) ->
  let neighbours := map fst (similar_users sqrt (interacoes db) user_id) in
  let neighbour_ids :=
    map imovel_id
        (filter (fun r => isin (usuario_id r) neighbours) (interacoes db)) in
  let ranking := value_counts neighbour_ids in
  let top := map fst (head n ranking) in
  get_collaborative_recommendations sqrt db user_id n
  = map (fun i => mkRow i None)
        (filter (fun i => isin (id i) top) (aprovados db)) /\
  (forall i, In (mkRow i None) (get_collaborative_recommendations sqrt db user_id n)
             <-> In i (imoveis db) /\ status i = "aprovado" /\ In (id i) top) /\
  Permutation (get_collaborative_recommendations sqrt db user_id n)
              (spec_collaborative_order sqrt db user_id n) /\
  StronglySorted (fun a b => snd b <= snd a) ranking /\
  (forall x c, In (x, c) ranking
               <-> In x neighbour_ids /\ c = count_of x neighbour_ids) /\
  NoDup (map fst ranking).
Proof.
  intros Hu neighbours neighbour_ids ranking top.
  pose proof (collab_eq sqrt db user_id n Hu) as E.
  change (map fst (recommended_imoveis sqrt (interacoes db) user_id n))
    with top in E.
  split; [exact E |]. split; [| split; [| split; [| split]]].
  - intros i. rewrite (collab_In sqrt db user_id n i Hu).
    change (map fst (recommended_imoveis sqrt (interacoes db) user_id n)) with top.
    unfold aprovados. rewrite filter_In, String.eqb_eq. tauto.
  - rewrite E. unfold spec_collaborative_order.
    change (map fst (recommended_imoveis sqrt (interacoes db) user_id n)) with top.
    apply isin_filter_perm. apply recommended_imoveis_NoDup.
  - apply value_counts_sorted.
  - intros x c. apply value_counts_In.
  - apply value_counts_NoDup.
Qed.

Lemma collaborative_catalog_order_witness :
  In 1 (map usuario_id (interacoes Tables.db)) /\
  get_collaborative_recommendations sqrt_approx Tables.db 1 2
  = map (fun i => mkRow i None)
        (filter (fun i => isin (id i)
                   (map fst (recommended_imoveis sqrt_approx
                               (interacoes Tables.db) 1 2)))
                (aprovados Tables.db)) /\
  map fst (recommended_imoveis sqrt_approx (interacoes Tables.db) 1 3) = [2; 1; 4] /\
  map row_id (get_collaborative_recommendations sqrt_approx Tables.db 1 3) = [1; 2].
Proof.
  assert (H : In 1 (map usuario_id (interacoes Tables.db))) by (simpl; now left).
  split; [exact H |]. split.
  - exact (proj1 (collaborative_catalog_order sqrt_approx Tables.db 1 2 H)).
  - split; vm_compute; reflexivity.
Defined.

(** ** Listings the target user has already seen, in both scorers *)





(** ** The neighbour set *)

Lemma sort_desc_tie (a b : Z) (d : Q) :
  sort_desc Qlt_bool snd [(a, d); (b, d)] = [(a, d); (b, d)].
Proof.
  unfold sort_desc. simpl. unfold Qlt_bool.
  assert (E : Qle_bool d d = true) by (apply Qle_bool_iff, Qle_refl).
  now rewrite E.
Qed.

(** C3, at the failing input.  Users 1 and 2 have the same interaction row
    and user 2 is the target: the two similarities are equal, the stable sort
    leaves user 1 first, and the slice [1:11] keeps user 2, the target itself,
    and loses user 1.  The listing recommended is then the target's own. *)
Theorem target_kept_as_neighbour :
  forall sqrt : Q -> Q,
    In 2 (matrix_index Tables.log_gemeos) /\
    map fst (similar_users sqrt Tables.log_gemeos 2) = [2] /\
    map fst (recommended_imoveis sqrt Tables.log_gemeos 2 5) = [10].
Proof.
  intros sqrt.
  assert (E : exists d, user_sim_column sqrt Tables.log_gemeos 2 = [(1, d); (2, d)]).
  { eexists. reflexivity. }
  destruct E as [d E].
  assert (Hs : map fst (similar_users sqrt Tables.log_gemeos 2) = [2]).
  { unfold similar_users. rewrite E, sort_desc_tie. reflexivity. }
  split; [simpl; tauto |]. split; [exact Hs |].
  unfold recommended_imoveis. rewrite Hs. reflexivity.
Qed.

(** ** Order of the content result and size of the neighbour set *)

Lemma StronglySorted_firstn {A : Type} (R : A -> A -> Prop) (n : nat) (l : list A) :
  StronglySorted R l -> StronglySorted R (firstn n l).
Proof.
  revert l. induction n as [| n IH]; intros l Hs; [constructor |].
  destruct Hs as [| x xs Hxs Hall]; simpl; [constructor |].
  constructor; [now apply IH |].
  apply Forall_forall. intros y Hy. apply firstn_In in Hy.
  rewrite Forall_forall in Hall. now apply Hall.
Qed.

(** The rows kept by [nlargest] are by descending similarity. *)
Lemma nlargest_sorted (n : Z) (df : list (Imovel * Q)) :
  StronglySorted (fun a b => snd b <= snd a)%Q (nlargest n df).
Proof.
  unfold nlargest. destruct (n <=? 0); [constructor |].
  apply StronglySorted_firstn.
  apply (sort_desc_sorted Qlt_bool snd Qle).
  - intros a b c. apply Qle_trans.
  - intros a b H. unfold Qlt_bool in H. apply negb_true_iff in H.
    destruct (Qlt_le_dec a b) as [Hlt | Hle]; [now apply Qlt_le_weak |].
    apply Qle_bool_iff in Hle. congruence.
  - intros a b H. unfold Qlt_bool in H. apply negb_false_iff in H.
    now apply Qle_bool_iff.
Qed.

Lemma similar_users_length (sqrt : Q -> Q) (log : list Interacao) (user_id : Z) :
  (length (similar_users sqrt log user_id) <= 10)%nat.
Proof. unfold similar_users. apply firstn_le_length. Qed.

(** The scenario of three listings, A and C equal on the four features: A and
    C come first, in catalog order, then B. *)
Example content_ranking_of_tables :
  map row_id (get_content_based_recommendations sqrt_approx Tables.db 1 5)
  = [1; 3; 2].
Proof. vm_compute. reflexivity. Qed.

(** * Further properties of the recommender *)

(** ** Size and rows of the results *)

Lemma drop_duplicates_In (seen : list Z) (l : list Row) (r : Row) :
  In r (drop_duplicates seen l) -> In r l.
Proof.
  revert seen. induction l as [| x xs IH]; intros seen H; simpl in *; [exact H |].
  destruct (isin (row_id x) seen).
  - right. now apply (IH seen).
  - destruct H as [H | H]; [now left | right; now apply (IH (row_id x :: seen))].
Qed.

Lemma hybrid_In (sqrt : Q -> Q) (db : Database) (user_id n : Z) (r : Row) :
  In r (get_hybrid_recommendations sqrt db user_id n) ->
  In r (get_content_based_recommendations sqrt db user_id n) \/
  In r (get_collaborative_recommendations sqrt db user_id n).
Proof.
  unfold get_hybrid_recommendations.
  destruct (get_content_based_recommendations sqrt db user_id n) as [| c cs];
    destruct (get_collaborative_recommendations sqrt db user_id n) as [| k ks];
    intros H; auto.
  apply head_incl, drop_duplicates_In, in_app_or in H. exact H.
Qed.

Lemma content_rows_aprovados (sqrt : Q -> Q) (db : Database) (user_id n : Z) (r : Row) :
  In r (get_content_based_recommendations sqrt db user_id n) ->
  In (imovel r) (aprovados db).
Proof.
  intros H. unfold get_content_based_recommendations in H.
  destruct (aprovados db) as [| i rest] eqn:Hcat; [destruct H |].
  apply in_map_iff in H. destruct H as [[a q] [Hx Hin]]. subst r. simpl.
  apply nlargest_In in Hin. unfold filter_prefs in Hin.
  destruct (pref_tipo _), (pref_provincia _);
    repeat (apply filter_In in Hin; destruct Hin as [Hin _]);
    now apply in_combine_l in Hin.
Qed.

Lemma collab_rows_aprovados (sqrt : Q -> Q) (db : Database) (user_id n : Z) (r : Row) :
  In r (get_collaborative_recommendations sqrt db user_id n) ->
  In (imovel r) (aprovados db).
Proof.
  intros H. destruct (collab_shape sqrt db user_id n) as [E | E];
    rewrite E in H; [destruct H |].
  apply in_map_iff in H. destruct H as [i [Hi Hin]]. subst r. simpl.
  apply filter_In in Hin. tauto.
Qed.

Lemma hybrid_length (sqrt : Q -> Q) (db : Database) (user_id n : Z) :
  0 <= n -> NoDup (map id (imoveis db)) ->
  (length (get_hybrid_recommendations sqrt db user_id n) <= Z.to_nat n)%nat.
Proof.
  intros Hn Hkey.
  pose proof (content_length sqrt db user_id n Hn) as Lc.
  pose proof (collab_length sqrt db user_id n Hn Hkey) as Lk.
  unfold get_hybrid_recommendations.
  destruct (get_content_based_recommendations sqrt db user_id n) as [| c cs];
    destruct (get_collaborative_recommendations sqrt db user_id n) as [| k ks];
    try assumption.
  now apply head_length.
Qed.

(** X1.  For n >= 0 and listing ids that are a key of the table, the hybrid
    result has at most n rows, no two rows of the same listing id, and every
    row is a listing whose status is 'aprovado'. *)
Theorem hybrid_bounded_distinct_approved
  (sqrt : Q -> Q) (db : Database) (user_id n : Z) :
  0 <= n ->
  NoDup (map id (imoveis db)) ->
  (length (get_hybrid_recommendations sqrt db user_id n) <= Z.to_nat n)%nat /\
  NoDup (map row_id (get_hybrid_recommendations sqrt db user_id n)) /\
  forall r, In r (get_hybrid_recommendations sqrt db user_id n) ->
            In (imovel r) (imoveis db) /\ status (imovel r) = "aprovado".
Proof.
  intros Hn Hkey. split; [now apply hybrid_length |].
  split; [now apply hybrid_ids_NoDup |].
  intros r Hr.
  assert (H : In (imovel r) (aprovados db)).
  { destruct (hybrid_In sqrt db user_id n r Hr) as [H | H];
      [now apply (content_rows_aprovados sqrt db user_id n)
      | now apply (collab_rows_aprovados sqrt db user_id n)]. }
  unfold aprovados in H. apply filter_In in H.
  destruct H as [H1 H2]. apply String.eqb_eq in H2. now split.
Qed.

Lemma hybrid_bounded_distinct_approved_witness :
  0 <= 2 /\
  NoDup (map id (imoveis Tables.db)) /\
  (length (get_hybrid_recommendations sqrt_approx Tables.db 1 2) <= 2)%nat.
Proof.
  assert (Hn : 0 <= 2) by lia.
  assert (Hkey : NoDup (map id (imoveis Tables.db))).
  { simpl. repeat (constructor; [simpl; lia |]). constructor. }
  split; [exact Hn |]. split; [exact Hkey |].
  exact (proj1 (hybrid_bounded_distinct_approved sqrt_approx Tables.db 1 2 Hn Hkey)).
Defined.

(** ** Order of the content result *)

(** The candidate rows of the content scorer: the catalog with its
    similarity column, after the two filters. *)
Lemma content_as_nlargest (sqrt : Q -> Q) (db : Database) (user_id n : Z) :
  aprovados db <> [] ->
  get_content_based_recommendations sqrt db user_id n
  = map (fun r => mkRow (fst r) (Some (snd r)))
        (nlargest n
           (filter_prefs (user_prefs_of (select_preferencias db user_id))
              (combine (aprovados db)
                 (similarities sqrt (aprovados db)
                    (user_prefs_of (select_preferencias db user_id)))))).
Proof.
  intros Hne. unfold get_content_based_recommendations.
  destruct (aprovados db); [congruence | reflexivity].
Qed.

(** X2.  The content result is by descending similarity: every returned row
    carries a similarity that is at most the similarity of each row before
    it, and every returned row is one of the candidate rows (approved
    listings that pass the type and province filters, with the similarity
    computed for them).  Nothing is stated on the order among rows of equal
    similarity. *)
Theorem content_sorted_by_similarity
  (sqrt : Q -> Q) (db : Database) (user_id n : Z) :
  aprovados db <> [] ->
  let user_prefs := user_prefs_of (select_preferencias db user_id) in
  let candidates :=
    filter_prefs user_prefs
      (combine (aprovados db) (similarities sqrt (aprovados db) user_prefs)) in
  exists kept : list (Imovel * Q),
    get_content_based_recommendations sqrt db user_id n
    = map (fun r => mkRow (fst r) (Some (snd r))) kept /\
    StronglySorted (fun a b => snd b <= snd a)%Q kept /\
    (forall r, In r kept -> In r candidates).
Proof.
  intros Hne user_prefs candidates.
  exists (nlargest n candidates).
  split; [now apply content_as_nlargest |].
  split; [apply nlargest_sorted |].
  intros r; apply nlargest_In.
Qed.

Lemma content_sorted_by_similarity_witness :
  aprovados Tables.db <> [] /\
  exists kept : list (Imovel * Q),
    get_content_based_recommendations sqrt_approx Tables.db 1 2
    = map (fun r => mkRow (fst r) (Some (snd r))) kept /\
    StronglySorted (fun a b => snd b <= snd a)%Q kept.
Proof.
  assert (H : aprovados Tables.db <> []) by (vm_compute; discriminate).
  split; [exact H |].
  destruct (content_sorted_by_similarity sqrt_approx Tables.db 1 2 H)
    as [kept [E [Hs _]]].
  exists kept. split; [exact E | exact Hs].
Defined.

(** ** The neighbours of the collaborative scorer *)

Lemma sorted_unique_single (u : Z) (l : list Z) :
  l <> [] -> (forall x, In x l -> x = u) -> sorted_unique l = [u].
Proof.
  induction l as [| x xs IH]; intros Hne Hall; [congruence |].
  assert (x = u) by (apply Hall; now left). subst x. simpl.
  destruct xs as [| y ys]; [reflexivity |].
  change (fold_right insert_unique [] (y :: ys)) with (sorted_unique (y :: ys)).
  rewrite IH; [| discriminate | intros z Hz; apply Hall; now right].
  simpl. now rewrite Z.ltb_irrefl, Z.eqb_refl.
Qed.

Lemma user_sim_column_length (sqrt : Q -> Q) (log : list Interacao) (u : Z) :
  length (user_sim_column sqrt log u) = length (matrix_index log).
Proof.
  unfold user_sim_column, cosine_similarity, user_item_matrix.
  rewrite length_combine, !length_map. apply Nat.min_id.
Qed.

Lemma combine_fst_same_length {A B : Type} (l : list A) :
  forall l' : list B, length l = length l' -> map fst (combine l l') = l.
Proof.
  induction l as [| x xs IH]; intros [| y ys] H; simpl in *; try congruence.
  f_equal. apply IH. congruence.
Qed.

Lemma user_sim_column_index (sqrt : Q -> Q) (log : list Interacao) (u : Z) :
  map fst (user_sim_column sqrt log u) = matrix_index log.
Proof.
  unfold user_sim_column. apply combine_fst_same_length.
  unfold cosine_similarity, user_item_matrix. now rewrite !length_map.
Qed.

Lemma insert_unique_increasing (x : Z) (l : list Z) :
  StronglySorted Z.lt l -> StronglySorted Z.lt (insert_unique x l).
Proof.
  induction l as [| y ys IH]; intros Hs; simpl.
  - repeat constructor.
  - inversion Hs as [| z zs Hys Hall]; subst.
    destruct (x <? y) eqn:E1.
    + apply Z.ltb_lt in E1. constructor; [assumption |].
      constructor; [assumption |].
      rewrite Forall_forall in *. intros z Hz. specialize (Hall z Hz). lia.
    + destruct (x =? y) eqn:E2; [assumption |].
      apply Z.ltb_ge in E1. apply Z.eqb_neq in E2.
      constructor; [now apply IH |].
      rewrite Forall_forall in *. intros z Hz.
      apply insert_unique_In in Hz. destruct Hz as [-> | Hz]; [lia | now apply Hall].
Qed.

Lemma sorted_unique_increasing (l : list Z) : StronglySorted Z.lt (sorted_unique l).
Proof.
  induction l as [| x xs IH]; simpl; [constructor |].
  now apply insert_unique_increasing.
Qed.

Lemma increasing_NoDup (l : list Z) : StronglySorted Z.lt l -> NoDup l.
Proof.
  induction 1 as [| x xs Hxs IH Hall]; constructor; [| assumption].
  intros Hin. rewrite Forall_forall in Hall. specialize (Hall x Hin). lia.
Qed.

Lemma NoDup_skipn {A : Type} (n : nat) (l : list A) : NoDup l -> NoDup (skipn n l).
Proof.
  intros H. rewrite <- (firstn_skipn n l) in H.
  now apply NoDup_app_remove_l in H.
Qed.

Lemma skipn_In {A : Type} (x : A) (n : nat) (l : list A) :
  In x (skipn n l) -> In x l.
Proof.
  intros H. rewrite <- (firstn_skipn n l). apply in_or_app. now right.
Qed.

(** X3.  The neighbours are distinct users of the interaction log, and there
    are min(10, users - 1) of them: every user but one when the log has at
    most 11 users. *)
Theorem neighbours_distinct_users (sqrt : Q -> Q) (log : list Interacao) (user_id : Z) :
  let neighbours := map fst (similar_users sqrt log user_id) in
  length neighbours = Nat.min 10 (length (matrix_index log) - 1) /\
  NoDup neighbours /\
  (forall v, In v neighbours -> In v (map usuario_id log)) /\
  StronglySorted Z.lt (matrix_index log).
Proof.
  intros neighbours. unfold neighbours, similar_users.
  split; [| split; [| split]].
  - rewrite length_map, length_firstn, length_skipn, sort_desc_length,
      user_sim_column_length. reflexivity.
  - rewrite <- firstn_map, <- skipn_map. apply NoDup_firstn, NoDup_skipn.
    eapply Permutation_NoDup.
    + apply Permutation_map, sort_desc_perm.
    + rewrite user_sim_column_index.
      apply increasing_NoDup, sorted_unique_increasing.
  - intros v Hv. rewrite <- firstn_map, <- skipn_map in Hv.
    apply firstn_In, skipn_In in Hv.
    apply (Permutation_in v
             (Permutation_sym
                (Permutation_map fst
                   (sort_desc_perm Qlt_bool snd (user_sim_column sqrt log user_id)))))
      in Hv.
    rewrite user_sim_column_index in Hv. now apply matrix_index_In.
  - apply sorted_unique_increasing.
Qed.

Lemma similar_users_lone (sqrt : Q -> Q) (log : list Interacao) (user_id : Z) :
  (length (matrix_index log) <= 1)%nat -> similar_users sqrt log user_id = [].
Proof.
  intros H. unfold similar_users.
  assert (L : (length (sort_desc Qlt_bool snd (user_sim_column sqrt log user_id))
               <= 1)%nat)
    by now rewrite sort_desc_length, user_sim_column_length.
  destruct (sort_desc Qlt_bool snd (user_sim_column sqrt log user_id))
    as [| a [| b l]]; simpl in *; [reflexivity | reflexivity | lia].
Qed.

Lemma head_nil {A : Type} (n : Z) : head n ([] : list A) = [].
Proof. unfold head. destruct (0 <=? n); apply firstn_nil. Qed.

(** X4.  When all the rows of the interaction log belong to one user, the
    collaborative result is empty for every target user and every n, the
    user of the log included: there is no neighbour to aggregate. *)
Theorem lone_user_collaborative_empty
  (sqrt : Q -> Q) (db : Database) (u user_id n : Z) :
  (forall r, In r (interacoes db) -> usuario_id r = u) ->
  get_collaborative_recommendations sqrt db user_id n = [] /\
  get_hybrid_recommendations sqrt db user_id n
  = get_content_based_recommendations sqrt db user_id n.
Proof.
  intros Hall.
  assert (Hk : get_collaborative_recommendations sqrt db user_id n = []).
  { destruct (collab_shape sqrt db user_id n) as [E | E]; [exact E |].
    rewrite E. unfold recommended_imoveis.
    rewrite similar_users_lone.
    - rewrite (filter_none _ (interacoes db)) by reflexivity.
      change (value_counts (map imovel_id [])) with (@nil (Z * Z)).
      rewrite head_nil.
      now rewrite filter_none by reflexivity.
    - destruct (interacoes db) as [| r rs] eqn:Hlog; [simpl; lia |].
      unfold matrix_index. rewrite (sorted_unique_single u); [simpl; lia | discriminate |].
      intros x Hx. apply in_map_iff in Hx. destruct Hx as [y [<- Hy]].
      now apply Hall. }
  split; [exact Hk | now apply hybrid_collab_empty].
Qed.

Lemma lone_user_collaborative_empty_witness :
  (forall r, In r [mkInteracao 1 1 "view"; mkInteracao 1 2 "click"] ->
             usuario_id r = 1) /\
  get_collaborative_recommendations sqrt_approx
    (mkDatabase [] [Tables.A; Tables.B]
                [mkInteracao 1 1 "view"; mkInteracao 1 2 "click"]) 1 5 = [].
Proof.
  assert (H : forall r, In r [mkInteracao 1 1 "view"; mkInteracao 1 2 "click"] ->
                        usuario_id r = 1).
  { intros r [<- | [<- | []]]; reflexivity. }
  split; [exact H |].
  exact (proj1 (lone_user_collaborative_empty sqrt_approx
                  (mkDatabase [] [Tables.A; Tables.B]
                     [mkInteracao 1 1 "view"; mkInteracao 1 2 "click"])
                  1 1 5 H)).
Defined.

Lemma neighbours_distinct_users_witness :
  In 2 (map fst (similar_users sqrt_approx Tables.log 1)) /\
  In 2 (map usuario_id Tables.log).
Proof.
  assert (H : In 2 (map fst (similar_users sqrt_approx Tables.log 1)))
    by (vm_compute; now left).
  split; [exact H |].
  destruct (neighbours_distinct_users sqrt_approx Tables.log 1) as [_ [_ [Hin _]]].
  exact (Hin 2 H).
Defined.

(** * Writes to the tables and the recommender *)

(** ** Approval of listings *)

Lemma update_status_rows (db : Database) (x : Z) (s : string) (i : Imovel) :
  In i (imoveis (update_property_status db x s)) ->
  exists j, In j (imoveis db) /\ id i = id j /\
            (id j = x -> status i = s) /\ (id j <> x -> i = j).
Proof.
  unfold update_property_status. simpl. intros H.
  apply in_map_iff in H. destruct H as [j [Hj Hin]].
  exists j. split; [exact Hin |].
  destruct (id j =? x) eqn:E.
  - apply Z.eqb_eq in E. subst i. simpl. repeat split; auto. congruence.
  - apply Z.eqb_neq in E. subst i. repeat split; auto. congruence.
Qed.

(** X7.  Once the status of listing x is set to anything but 'aprovado'
    (a rejection, for instance), no row of the content, collaborative or
    hybrid result has id x, for any user and any n. *)
Theorem rejected_listing_never_recommended
  (sqrt : Q -> Q) (db : Database) (x : Z) (new_status : string) (user_id n : Z) :
  new_status <> "aprovado" ->
  let db' := update_property_status db x new_status in
  forall r,
    In r (get_content_based_recommendations sqrt db' user_id n) \/
    In r (get_collaborative_recommendations sqrt db' user_id n) \/
    In r (get_hybrid_recommendations sqrt db' user_id n) ->
    row_id r <> x.
Proof.
  intros Hs db' r Hr.
  assert (Hap : In (imovel r) (aprovados db')).
  { destruct Hr as [H | [H | H]].
    - now apply (content_rows_aprovados sqrt db' user_id n).
    - now apply (collab_rows_aprovados sqrt db' user_id n).
    - destruct (hybrid_In sqrt db' user_id n r H) as [H' | H'];
        [now apply (content_rows_aprovados sqrt db' user_id n)
        | now apply (collab_rows_aprovados sqrt db' user_id n)]. }
  unfold aprovados in Hap. apply filter_In in Hap. destruct Hap as [Hin Hst].
  apply String.eqb_eq in Hst.
  destruct (update_status_rows db x new_status _ Hin) as [j [_ [Hid [Hx _]]]].
  unfold row_id. intros E. apply Hs. rewrite <- Hst. symmetry. apply Hx. congruence.
Qed.

Lemma rejected_listing_never_recommended_witness :
  "rejeitado" <> "aprovado" /\
  map row_id (get_hybrid_recommendations sqrt_approx Tables.db 1 5) = [1; 3; 2] /\
  ~ In 1 (map row_id
            (get_hybrid_recommendations sqrt_approx
               (update_property_status Tables.db 1 "rejeitado") 1 5)).
Proof.
  assert (H : "rejeitado" <> "aprovado") by discriminate.
  split; [exact H |]. split; [vm_compute; reflexivity |].
  intros Hin. rewrite in_map_iff in Hin. destruct Hin as [r [Hid Hr]].
  exact (rejected_listing_never_recommended sqrt_approx Tables.db 1 "rejeitado"
           1 5 H r (or_intror (or_intror Hr)) Hid).
Defined.

Lemma imovel_eta (i : Imovel) :
  mkImovel (id i) (tipo i) (provincia i) (preco i) (quartos i) (banheiros i)
           (area i) (status i) = i.
Proof. now destruct i. Qed.

(** X8.  Setting the status of listing x keeps the ids of the table and
    their order, leaves the rows of other ids as they are, gives the new
    status to every row of id x, and the last write wins.  Approving keeps
    every listing that was approved and adds the rows of id x. *)
Theorem update_property_status_frame (db : Database) (x : Z) (s1 s2 : string) :
  map id (imoveis (update_property_status db x s1)) = map id (imoveis db) /\
  (forall i, In i (imoveis db) -> id i <> x ->
             In i (imoveis (update_property_status db x s1))) /\
  (forall i, In i (imoveis (update_property_status db x s1)) -> id i = x ->
             status i = s1) /\
  update_property_status (update_property_status db x s1) x s2
  = update_property_status db x s2 /\
  (forall i, In i (aprovados db) ->
             In i (aprovados (update_property_status db x "aprovado"))) /\
  (forall i, In i (imoveis db) -> id i = x ->
             In x (map id (aprovados (update_property_status db x "aprovado")))).
Proof.
  split; [| split; [| split; [| split; [| split]]]].
  - unfold update_property_status. simpl. rewrite map_map.
    apply map_ext. intros i. now destruct (id i =? x).
  - intros i Hin Hne. unfold update_property_status. simpl.
    apply in_map_iff. exists i. split; [| exact Hin].
    apply Z.eqb_neq in Hne. now rewrite Hne.
  - intros i Hin Hid.
    destruct (update_status_rows db x s1 i Hin) as [j [_ [Hij [Hx _]]]].
    apply Hx. congruence.
  - unfold update_property_status. simpl. f_equal. rewrite map_map.
    apply map_ext. intros i. destruct (id i =? x) eqn:E; simpl; now rewrite E.
  - intros i Hin. unfold aprovados in *. apply filter_In in Hin.
    destruct Hin as [Hin Hst]. apply filter_In. split; [| exact Hst].
    unfold update_property_status. simpl. apply in_map_iff. exists i.
    split; [| exact Hin]. destruct (id i =? x); [| reflexivity].
    apply String.eqb_eq in Hst. rewrite <- Hst. apply imovel_eta.
  - intros i Hin Hid. apply in_map_iff.
    exists (mkImovel (id i) (tipo i) (provincia i) (preco i) (quartos i)
                     (banheiros i) (area i) "aprovado").
    split; [exact Hid |]. unfold aprovados. apply filter_In. split; [| reflexivity].
    unfold update_property_status. simpl. apply in_map_iff. exists i.
    split; [| exact Hin]. apply Z.eqb_eq in Hid. now rewrite Hid.
Qed.

Lemma update_property_status_frame_witness :
  In Tables.D (imoveis Tables.db) /\ id Tables.D = 4 /\
  In 4 (map id (aprovados (update_property_status Tables.db 4 "aprovado"))).
Proof.
  assert (H1 : In Tables.D (imoveis Tables.db)) by (simpl; tauto).
  assert (H2 : id Tables.D = 4) by reflexivity.
  split; [exact H1 |]. split; [exact H2 |].
  destruct (update_property_status_frame Tables.db 4 "aprovado" "aprovado")
    as [_ [_ [_ [_ [_ H]]]]].
  exact (H Tables.D H1 H2).
Defined.

(** ** Recording interactions *)

(** X9.  Recording an interaction of user u adds one row at the end of the
    log and leaves the content result of every user as it was; u then has
    interaction history, and a user other than u who had none still gets an
    empty collaborative result. *)
Theorem record_interaction_effect
  (sqrt : Q -> Q) (db : Database) (u x : Z) (kind : string) (n : Z) :
  let db' := record_interaction db u x kind in
  interacoes db' = interacoes db ++ [mkInteracao u x kind] /\
  (forall v, get_content_based_recommendations sqrt db' v n
             = get_content_based_recommendations sqrt db v n) /\
  In u (matrix_index (interacoes db')) /\
  (forall v, v <> u -> ~ In v (map usuario_id (interacoes db)) ->
             get_collaborative_recommendations sqrt db' v n = []).
Proof.
  intros db'. split; [reflexivity |]. split; [reflexivity |]. split.
  - apply matrix_index_In. unfold db', record_interaction. simpl.
    rewrite map_app. apply in_or_app. right. now left.
  - intros v Hv Hno. apply collaborative_no_history.
    unfold db', record_interaction. simpl. rewrite map_app.
    intros Hin. apply in_app_or in Hin. destruct Hin as [Hin | [Hin | []]];
      [contradiction | simpl in Hin; congruence].
Qed.

Lemma record_interaction_effect_witness :
  7 <> 1 /\ ~ In 7 (map usuario_id (interacoes Tables.db)) /\
  get_collaborative_recommendations sqrt_approx
    (record_interaction Tables.db 1 3 "view") 7 5 = [].
Proof.
  assert (H1 : 7 <> 1) by lia.
  assert (H2 : ~ In 7 (map usuario_id (interacoes Tables.db))).
  { simpl. intros [E | [E | [E | [E | [E | [E | [E | []]]]]]]]; discriminate E. }
  split; [exact H1 |]. split; [exact H2 |].
  destruct (record_interaction_effect sqrt_approx Tables.db 1 3 "view" 5)
    as [_ [_ [_ H]]].
  exact (H 7 H1 H2).
Defined.

(** ** Saving the preference form *)

Lemma filter_prefs_null_provincia (p : Prefs) (df : list (Imovel * Q)) :
  pref_provincia p = Some None -> filter_prefs p df = [].
Proof.
  intros H. unfold filter_prefs. rewrite H.
  now apply filter_none.
Qed.

Lemma select_after_update (db : Database) (u : Z) (p : Prefs) :
  In u (map usuario (usuarios db)) ->
  exists rest,
    select_preferencias (update_user_preferencias db u p) u = Some p :: rest.
Proof.
  unfold select_preferencias, update_user_preferencias. simpl.
  induction (usuarios db) as [| c cs IH]; intros Hin; [destruct Hin |].
  simpl. destruct (usuario c =? u) eqn:E.
  - simpl. rewrite E. simpl. eauto.
  - rewrite E. apply IH. destruct Hin as [Hin | Hin]; [| exact Hin].
    apply Z.eqb_neq in E. congruence.
Qed.

Lemma select_other_user (db : Database) (u v : Z) (p : Prefs) :
  v <> u ->
  select_preferencias (update_user_preferencias db u p) v
  = select_preferencias db v.
Proof.
  intros Hv. unfold select_preferencias, update_user_preferencias. simpl.
  induction (usuarios db) as [| c cs IH]; [reflexivity |].
  simpl. destruct (usuario c =? u) eqn:E.
  - simpl. apply Z.eqb_eq in E.
    assert (E' : (usuario c =? v) = false) by (apply Z.eqb_neq; congruence).
    now rewrite E'.
  - destruct (usuario c =? v); simpl; now rewrite IH.
Qed.

(** X10.  After user u saves the preference form, every row of u's content
    result has exactly the type and the province chosen in the form; when
    either select box was left on 'qualquer', the content result of u is
    empty.  The content result of every other user is unchanged. *)
Theorem saved_preferences_filter_content
  (sqrt : Q -> Q) (db : Database) (u : Z)
  (tipo_preferido provincia_preferida : string) (pmax qmin : Z) (n : Z) :
  In u (map usuario (usuarios db)) ->
  let db' := update_user_preferencias db u
               (novas_prefs tipo_preferido provincia_preferida pmax qmin) in
  (forall r, In r (get_content_based_recommendations sqrt db' u n) ->
             tipo (imovel r) = tipo_preferido /\
             provincia (imovel r) = provincia_preferida) /\
  (tipo_preferido = "qualquer" \/ provincia_preferida = "qualquer" ->
   get_content_based_recommendations sqrt db' u n = []) /\
  (forall v, v <> u ->
             get_content_based_recommendations sqrt db' v n
             = get_content_based_recommendations sqrt db v n).
Proof.
  intros Hu db'.
  destruct (select_after_update db u
              (novas_prefs tipo_preferido provincia_preferida pmax qmin) Hu)
    as [rest Hsel]. fold db' in Hsel.
  assert (Hempty : tipo_preferido = "qualquer" \/ provincia_preferida = "qualquer" ->
                   get_content_based_recommendations sqrt db' u n = []).
  { intros Hq. unfold get_content_based_recommendations.
    destruct (aprovados db'); [reflexivity |].
    rewrite Hsel. simpl user_prefs_of.
    assert (E : forall df, filter_prefs
                  (novas_prefs tipo_preferido provincia_preferida pmax qmin) df = []).
    { intros df. destruct Hq as [-> | ->];
        [apply filter_prefs_null_tipo | apply filter_prefs_null_provincia];
        reflexivity. }
    rewrite E. unfold nlargest. destruct (n <=? 0); [reflexivity |].
    simpl. now rewrite firstn_nil. }
  split; [| split; [exact Hempty |]].
  - intros r Hr.
    destruct (String.eqb_spec tipo_preferido "qualquer") as [Ht | Ht].
    { rewrite Hempty in Hr by now left. destruct Hr. }
    destruct (String.eqb_spec provincia_preferida "qualquer") as [Hp | Hp].
    { rewrite Hempty in Hr by now right. destruct Hr. }
    destruct (content_filter_sound sqrt db' u n r Hr) as [_ [Ht' Hp']].
    rewrite Hsel in Ht', Hp'. simpl user_prefs_of in Ht', Hp'.
    apply String.eqb_neq in Ht, Hp. split.
    + apply Ht'. simpl. now rewrite Ht.
    + apply Hp'. simpl. now rewrite Hp.
  - intros v Hv. unfold get_content_based_recommendations, db'.
    rewrite select_other_user by exact Hv. reflexivity.
Qed.

Lemma saved_preferences_filter_content_witness :
  In 1 (map usuario (usuarios Tables.db)) /\
  map row_id
    (get_content_based_recommendations sqrt_approx
       (update_user_preferencias Tables.db 1
          (novas_prefs "casa" "Luanda" 100000000 1)) 1 5) = [1] /\
  get_content_based_recommendations sqrt_approx
    (update_user_preferencias Tables.db 1
       (novas_prefs "qualquer" "Luanda" 100000000 1)) 1 5 = [].
Proof.
  assert (H : In 1 (map usuario (usuarios Tables.db))) by (simpl; tauto).
  split; [exact H |]. split; [vm_compute; reflexivity |].
  destruct (saved_preferences_filter_content sqrt_approx Tables.db 1
              "qualquer" "Luanda" 100000000 1 5 H) as [_ [He _]].
  apply He. now left.
Defined.

(** X11.  Reopening the preference form.  After a save with a type (resp.
    province) other than 'qualquer', the select box is positioned on the
    saved option; with no stored key it is positioned on 'qualquer'; after a
    save with 'qualquer' the stored value is null, [list.index] finds no
    such option and raises ValueError. *)
Theorem preference_form_reopen :
  (forall t prov pmax qmin, In t tipos_form -> t <> "qualquer" ->
     exists k, tipo_index (novas_prefs t prov pmax qmin) = Some k /\
               nth_error tipos_form k = Some t) /\
  (forall t prov pmax qmin, In prov provincias_form -> prov <> "qualquer" ->
     exists k, provincia_index (novas_prefs t prov pmax qmin) = Some k /\
               nth_error provincias_form k = Some prov) /\
  (forall p, pref_tipo p = None -> tipo_index p = Some 0%nat) /\
  (forall p, pref_provincia p = None -> provincia_index p = Some 0%nat) /\
  (forall prov pmax qmin, tipo_index (novas_prefs "qualquer" prov pmax qmin) = None) /\
  (forall t pmax qmin, provincia_index (novas_prefs t "qualquer" pmax qmin) = None).
Proof.
  split; [| split; [| split; [| split; [| split]]]].
  - intros t prov pmax qmin Hin Hne. simpl in Hin.
    destruct Hin as [<- | [<- | [<- | [<- | []]]]]; [congruence | | |].
    + exists 1%nat. now split.
    + exists 2%nat. now split.
    + exists 3%nat. now split.
  - intros t prov pmax qmin Hin Hne. simpl in Hin.
    destruct Hin as [<- | [<- | [<- | [<- | [<- | [<- | []]]]]]]; [congruence | | | | |].
    + exists 1%nat. now split.
    + exists 2%nat. now split.
    + exists 3%nat. now split.
    + exists 4%nat. now split.
    + exists 5%nat. now split.
  - intros p H. unfold tipo_index. now rewrite H.
  - intros p H. unfold provincia_index. now rewrite H.
  - reflexivity.
  - reflexivity.
Qed.

Lemma preference_form_reopen_witness :
  In "apartamento" tipos_form /\ "apartamento" <> "qualquer" /\
  exists k, tipo_index (novas_prefs "apartamento" "Huambo" 100000000 1) = Some k /\
            nth_error tipos_form k = Some "apartamento".
Proof.
  assert (H1 : In "apartamento" tipos_form) by (simpl; tauto).
  assert (H2 : "apartamento" <> "qualquer") by discriminate.
  split; [exact H1 |]. split; [exact H2 |].
  exact (proj1 preference_form_reopen "apartamento" "Huambo" 100000000 1 H1 H2).
Defined.

(** * Favourites *)

Lemma same_favorite_iff (u x : Z) (f : Z * Z) :
  same_favorite u x f = true <-> f = (u, x).
Proof.
  unfold same_favorite. destruct f as [a b]. simpl.
  rewrite andb_true_iff, !Z.eqb_eq. split.
  - intros [-> ->]. reflexivity.
  - intros E. injection E as -> ->. now split.
Qed.

Lemma is_favorited_In (favoritos : list (Z * Z)) (u x : Z) :
  is_favorited favoritos u x = true <-> In (u, x) favoritos.
Proof.
  unfold is_favorited. rewrite existsb_exists. split.
  - intros [f [Hin Hf]]. apply same_favorite_iff in Hf. now subst.
  - intros Hin. exists (u, x). split; [exact Hin | now apply same_favorite_iff].
Qed.

Lemma add_favorite_In (favoritos : list (Z * Z)) (u x : Z) (f : Z * Z) :
  In f (add_favorite favoritos u x) <-> In f favoritos \/ f = (u, x).
Proof.
  unfold add_favorite.
  destruct (existsb (same_favorite u x) favoritos) eqn:E.
  - change (existsb (same_favorite u x) favoritos) with (is_favorited favoritos u x) in E.
    apply is_favorited_In in E. split; [now left |].
    intros [H | ->]; assumption.
  - rewrite in_app_iff. simpl. intuition.
Qed.

Lemma remove_favorite_In (favoritos : list (Z * Z)) (u x : Z) (f : Z * Z) :
  In f (remove_favorite favoritos u x) <-> In f favoritos /\ f <> (u, x).
Proof.
  unfold remove_favorite. rewrite filter_In, negb_true_iff.
  rewrite <- not_true_iff_false, same_favorite_iff. reflexivity.
Qed.

Lemma is_favorited_ext (f1 f2 : list (Z * Z)) (u x : Z) :
  (In (u, x) f1 <-> In (u, x) f2) -> is_favorited f1 u x = is_favorited f2 u x.
Proof.
  intros H. destruct (is_favorited f2 u x) eqn:E.
  - apply is_favorited_In, H, is_favorited_In, E.
  - apply not_true_iff_false. intros E'.
    apply is_favorited_In, H, is_favorited_In in E'. congruence.
Qed.

Lemma is_favorited_add_same (favoritos : list (Z * Z)) (u x : Z) :
  is_favorited (add_favorite favoritos u x) u x = true.
Proof. apply is_favorited_In, add_favorite_In. now right. Qed.

Lemma is_favorited_remove_same (favoritos : list (Z * Z)) (u x : Z) :
  is_favorited (remove_favorite favoritos u x) u x = false.
Proof.
  apply not_true_iff_false. intros H.
  apply is_favorited_In, remove_favorite_In in H. now destruct H.
Qed.

Lemma is_favorited_add_other (favoritos : list (Z * Z)) (u x v y : Z) :
  (v, y) <> (u, x) ->
  is_favorited (add_favorite favoritos u x) v y = is_favorited favoritos v y.
Proof.
  intros Hne. apply is_favorited_ext. rewrite add_favorite_In. intuition.
Qed.

Lemma is_favorited_remove_other (favoritos : list (Z * Z)) (u x v y : Z) :
  (v, y) <> (u, x) ->
  is_favorited (remove_favorite favoritos u x) v y = is_favorited favoritos v y.
Proof.
  intros Hne. apply is_favorited_ext. rewrite remove_favorite_In. intuition.
Qed.

(** X12.  Adding a favourite makes [is_favorited] true for that pair,
    removing it makes it false, and neither changes the answer for any other
    (user, listing) pair. *)
Theorem favorite_add_remove_lookup (favoritos : list (Z * Z)) (u x : Z) :
  is_favorited (add_favorite favoritos u x) u x = true /\
  is_favorited (remove_favorite favoritos u x) u x = false /\
  (forall v y, (v, y) <> (u, x) ->
     is_favorited (add_favorite favoritos u x) v y = is_favorited favoritos v y /\
     is_favorited (remove_favorite favoritos u x) v y = is_favorited favoritos v y).
Proof.
  split; [apply is_favorited_add_same |].
  split; [apply is_favorited_remove_same |].
  intros v y Hne.
  split; [now apply is_favorited_add_other | now apply is_favorited_remove_other].
Qed.

Lemma favorite_add_remove_lookup_witness :
  (2, 5) <> (1, 5) /\
  is_favorited (add_favorite [(2, 5)] 1 5) 2 5 = is_favorited [(2, 5)] 2 5.
Proof.
  assert (H : (2, 5) <> (1, 5)) by discriminate.
  split; [exact H |].
  destruct (favorite_add_remove_lookup [(2, 5)] 1 5) as [_ [_ Hf]].
  exact (proj1 (Hf 2 5 H)).
Defined.

(** X13.  The primary key of [favoritos] is kept: a table without repeated
    pairs stays so under [add_favorite] and [remove_favorite]; adding a pair
    that is already there leaves the table as it is (the IntegrityError is
    silenced), so adding twice is adding once; removing a pair that was just
    added to a table without it gives the table back. *)
Theorem favorites_primary_key (favoritos : list (Z * Z)) (u x : Z) :
  NoDup favoritos ->
  NoDup (add_favorite favoritos u x) /\
  NoDup (remove_favorite favoritos u x) /\
  (is_favorited favoritos u x = true -> add_favorite favoritos u x = favoritos) /\
  add_favorite (add_favorite favoritos u x) u x = add_favorite favoritos u x /\
  (is_favorited favoritos u x = false ->
   remove_favorite (add_favorite favoritos u x) u x = favoritos).
Proof.
  intros Hnd.
  assert (Hadd : forall t, is_favorited t u x = true -> add_favorite t u x = t).
  { intros t H. unfold add_favorite. unfold is_favorited in H. now rewrite H. }
  split; [| split; [| split; [apply Hadd | split]]].
  - unfold add_favorite.
    destruct (existsb (same_favorite u x) favoritos) eqn:E; [exact Hnd |].
    apply NoDup_app; [exact Hnd | repeat constructor; intros [] |].
    intros f Hf [<- | []].
    change (existsb (same_favorite u x) favoritos) with (is_favorited favoritos u x) in E.
    apply not_true_iff_false in E. apply E. now apply is_favorited_In.
  - now apply NoDup_filter.
  - apply Hadd. apply is_favorited_In, add_favorite_In. now right.
  - intros H. unfold add_favorite. unfold is_favorited in H. rewrite H.
    unfold remove_favorite. rewrite filter_app. simpl.
    assert (E : same_favorite u x (u, x) = true) by now apply same_favorite_iff.
    rewrite E. simpl. rewrite app_nil_r. apply filter_all.
    intros f Hf. apply negb_true_iff, not_true_iff_false. intros Hs.
    apply same_favorite_iff in Hs. subst f.
    change (existsb (same_favorite u x) favoritos) with (is_favorited favoritos u x) in H.
    apply not_true_iff_false in H. apply H. now apply is_favorited_In.
Qed.

Lemma favorites_primary_key_witness :
  NoDup [(1, 5); (2, 5)] /\
  NoDup (add_favorite [(1, 5); (2, 5)] 1 5) /\
  add_favorite [(1, 5); (2, 5)] 1 5 = [(1, 5); (2, 5)].
Proof.
  assert (H : NoDup [(1, 5); (2, 5)]).
  { constructor; [intros [E | []]; discriminate E |].
    constructor; [intros [] | constructor]. }
  split; [exact H |].
  destruct (favorites_primary_key [(1, 5); (2, 5)] 1 5 H) as [H1 [_ [H2 _]]].
  split; [exact H1 | apply H2; reflexivity].
Defined.

(** X14.  A press of the favourite button of a listing flips whether the
    user has it as a favourite and changes no other pair; two presses give
    back, for every pair, the answer there was before. *)
Theorem favorite_button_toggles (favoritos : list (Z * Z)) (u x : Z) :
  is_favorited (favorite_button favoritos u x) u x
  = negb (is_favorited favoritos u x) /\
  (forall v y, (v, y) <> (u, x) ->
     is_favorited (favorite_button favoritos u x) v y = is_favorited favoritos v y) /\
  (forall v y,
     is_favorited (favorite_button (favorite_button favoritos u x) u x) v y
     = is_favorited favoritos v y).
Proof.
  assert (H1 : forall f, is_favorited (favorite_button f u x) u x
                         = negb (is_favorited f u x)).
  { intros f. unfold favorite_button. destruct (is_favorited f u x) eqn:E; simpl;
      [apply is_favorited_remove_same | apply is_favorited_add_same]. }
  assert (H2 : forall f v y, (v, y) <> (u, x) ->
               is_favorited (favorite_button f u x) v y = is_favorited f v y).
  { intros f v y Hne. unfold favorite_button.
    destruct (is_favorited f u x);
      [now apply is_favorited_remove_other | now apply is_favorited_add_other]. }
  split; [apply H1 |]. split; [apply H2 |].
  intros v y.
  destruct (Z.eq_dec v u) as [-> | Hv].
  - destruct (Z.eq_dec y x) as [-> | Hy].
    + rewrite !H1. apply negb_involutive.
    + rewrite !H2 by congruence. reflexivity.
  - rewrite !H2 by congruence. reflexivity.
Qed.

Lemma favorite_button_toggles_witness :
  (2, 5) <> (1, 5) /\
  is_favorited (favorite_button [(2, 5)] 1 5) 2 5 = is_favorited [(2, 5)] 2 5 /\
  is_favorited (favorite_button [(2, 5)] 1 5) 1 5 = true.
Proof.
  assert (H : (2, 5) <> (1, 5)) by discriminate.
  split; [exact H |].
  destruct (favorite_button_toggles [(2, 5)] 1 5) as [H1 [H2 _]].
  split; [exact (H2 2 5 H) | exact H1].
Defined.

(** * The listing query *)

(** X15.  Whatever the filters, the query text of [show_properties] has as
    many placeholders as there are bound parameters, so the execution never
    fails on a binding count. *)
Theorem query_placeholders_match_params (filters : option Filters) :
  placeholders (fst (show_properties_query filters))
  = length (snd (show_properties_query filters)).
Proof.
  unfold show_properties_query. destruct filters as [f |]; [| reflexivity].
  destruct (has_key f); [| reflexivity].
  destruct (truthy_text (filter_tipo f)), (truthy_text (filter_provincia f)),
    (truthy_num (filter_preco_max f)); reflexivity.
Qed.

Lemma query_text_by_truth (f : Filters) :
  fst (show_properties_query (Some f))
  = fst (show_properties_query
           (Some (mkFilters
                    (if truthy_text (filter_tipo f) then Some "x" else None)
                    (if truthy_text (filter_provincia f) then Some "x" else None)
                    (if truthy_num (filter_preco_max f) then Some 1%Q else None)))).
Proof.
  unfold show_properties_query.
  destruct f as [[t |] [p |] [m |]]; simpl;
    repeat match goal with
           | |- context [negb (?s =? "")%string] => destruct (negb (s =? "")%string)
           | |- context [negb (Qeq_bool ?q 0)] => destruct (negb (Qeq_bool q 0))
           end; reflexivity.
Qed.

(** X16.  The query text depends on which filters are set to a true value,
    never on the values themselves, which only travel as bound parameters.
    A filter that is missing, empty or, for the price, 0 adds no condition:
    with the price widget on 0 the query has no price condition at all. *)
Theorem query_text_independent_of_values :
  (forall f1 f2,
     truthy_text (filter_tipo f1) = truthy_text (filter_tipo f2) ->
     truthy_text (filter_provincia f1) = truthy_text (filter_provincia f2) ->
     truthy_num (filter_preco_max f1) = truthy_num (filter_preco_max f2) ->
     fst (show_properties_query (Some f1)) = fst (show_properties_query (Some f2))) /\
  (forall f,
     truthy_text (filter_tipo f) = false ->
     truthy_text (filter_provincia f) = false ->
     truthy_num (filter_preco_max f) = false ->
     show_properties_query (Some f) = show_properties_query None) /\
  (forall t p,
     show_properties_query (Some (widget_filters t p 0))
     = show_properties_query
         (Some (mkFilters (filter_tipo (widget_filters t p 0))
                          (filter_provincia (widget_filters t p 0)) None))).
Proof.
  split; [| split].
  - intros f1 f2 H1 H2 H3.
    rewrite (query_text_by_truth f1), (query_text_by_truth f2), H1, H2, H3.
    reflexivity.
  - intros f H1 H2 H3. unfold show_properties_query.
    rewrite H1, H2, H3. now destruct (has_key f).
  - intros t p. unfold show_properties_query, widget_filters. simpl.
    destruct (t =? "todos")%string, (p =? "todas")%string; simpl;
      repeat match goal with
             | |- context [negb (?s =? "")%string] => destruct (negb (s =? "")%string)
             end; reflexivity.
Qed.

Lemma query_text_independent_of_values_witness :
  truthy_text (filter_tipo (mkFilters (Some "") None (Some 0%Q))) = false /\
  show_properties_query (Some (mkFilters (Some "") None (Some 0%Q)))
  = show_properties_query None.
Proof.
  assert (H : truthy_text (filter_tipo (mkFilters (Some "") None (Some 0%Q))) = false)
    by reflexivity.
  split; [exact H |].
  destruct query_text_independent_of_values as [_ [Hf _]].
  apply Hf; reflexivity.
Defined.

(** * Accounts *)

Lemma has_email_iff (e : string) (c : Auth.Conta) :
  Auth.has_email e c = true <-> Auth.email c = e.
Proof. unfold Auth.has_email. apply String.eqb_eq. Qed.

Lemma email_taken_iff (e : string) (rows : list Auth.Conta) :
  existsb (Auth.has_email e) rows = true <-> In e (map Auth.email rows).
Proof.
  rewrite existsb_exists, in_map_iff. split.
  - intros [c [Hin Hc]]. exists c. split; [now apply has_email_iff | exact Hin].
  - intros [c [Hc Hin]]. exists c. split; [exact Hin | now apply has_email_iff].
Qed.

Lemma role_allowed_iff (r : string) :
  existsb (String.eqb r) Auth.roles = true <-> In r Auth.roles.
Proof.
  rewrite existsb_exists. split.
  - intros [x [Hin Hx]]. apply String.eqb_eq in Hx. now subst.
  - intros Hin. exists r. split; [exact Hin | apply String.eqb_refl].
Qed.

Lemma insert_usuario_some (t : Auth.Usuarios) (nome email hash role status : string) :
  ~ In email (map Auth.email (Auth.linhas t)) -> In role Auth.roles ->
  Auth.insert_usuario t nome email hash role status
  = Some (Auth.mkUsuarios
            (Auth.linhas t
             ++ [Auth.mkConta (Auth.next_id t) nome email hash role status None])
            (Auth.next_id t)).
Proof.
  intros He Hr. unfold Auth.insert_usuario.
  assert (E1 : existsb (Auth.has_email email) (Auth.linhas t) = false).
  { apply not_true_iff_false. now rewrite email_taken_iff. }
  assert (E2 : existsb (String.eqb role) Auth.roles = true)
    by now apply role_allowed_iff.
  now rewrite E1, E2.
Qed.

Lemma insert_usuario_none (t : Auth.Usuarios) (nome email hash role status : string) :
  In email (map Auth.email (Auth.linhas t)) \/ ~ In role Auth.roles ->
  Auth.insert_usuario t nome email hash role status = None.
Proof.
  intros H. unfold Auth.insert_usuario.
  destruct (existsb (Auth.has_email email) (Auth.linhas t)) eqn:E1; [reflexivity |].
  destruct (existsb (String.eqb role) Auth.roles) eqn:E2; [| reflexivity].
  exfalso. destruct H as [H | H].
  - apply email_taken_iff in H. congruence.
  - apply H. now apply role_allowed_iff.
Qed.

Lemma find_app_new (e : string) (rows : list Auth.Conta) (c : Auth.Conta) :
  ~ In e (map Auth.email rows) ->
  find (Auth.has_email e) (rows ++ [c])
  = if Auth.has_email e c then Some c else None.
Proof.
  induction rows as [| r rs IH]; intros H; [reflexivity |].
  simpl. destruct (Auth.has_email e r) eqn:E.
  - exfalso. apply H. left. now apply has_email_iff.
  - apply IH. intros Hin. apply H. now right.
Qed.

Lemma find_app_other (e : string) (rows : list Auth.Conta) (c : Auth.Conta) :
  Auth.email c <> e ->
  find (Auth.has_email e) (rows ++ [c]) = find (Auth.has_email e) rows.
Proof.
  intros H. induction rows as [| r rs IH]; simpl.
  - assert (E : Auth.has_email e c = false)
      by (apply not_true_iff_false; now rewrite has_email_iff).
    now rewrite E.
  - now destruct (Auth.has_email e r).
Qed.

Lemma next_id_above (t : Auth.Usuarios) (c : Auth.Conta) :
  In c (Auth.linhas t) -> Auth.id c < Auth.next_id t.
Proof.
  unfold Auth.next_id. generalize (Auth.seq t). intros s.
  induction (Auth.linhas t) as [| r rs IH]; intros Hin; [destruct Hin |].
  cbn [map fold_right]. destruct Hin as [-> | Hin]; [lia |].
  specialize (IH Hin). lia.
Qed.

(** X17.  [register_user] returns False and leaves the table as it was when
    the email is already taken or the role is not one of 'admin',
    'imobiliaria', 'usuario'.  Whenever it returns True, the email was new
    and the role allowed, and the table is the old one with one account
    appended: active, without preferences, holding the hash of the password
    and an id larger than every id of the table. *)
Theorem register_user_outcome
  (hashpw : string -> string -> string) (t : Auth.Usuarios)
  (nome email senha role salt : string) :
  (In email (map Auth.email (Auth.linhas t)) \/ ~ In role Auth.roles ->
   Auth.register_user hashpw t nome email senha role salt = (t, false)) /\
  (forall t',
     Auth.register_user hashpw t nome email senha role salt = (t', true) ->
     ~ In email (map Auth.email (Auth.linhas t)) /\
     In role Auth.roles /\
     Auth.linhas t'
     = Auth.linhas t
       ++ [Auth.mkConta (Auth.next_id t) nome email (hashpw senha salt) role
                        "ativo" None] /\
     forall c, In c (Auth.linhas t) -> Auth.id c < Auth.next_id t).
Proof.
  split.
  - intros H. unfold Auth.register_user. now rewrite insert_usuario_none.
  - intros t' Hreg. unfold Auth.register_user in Hreg.
    destruct (Auth.insert_usuario t nome email (hashpw senha salt) role "ativo")
      as [t1 |] eqn:Hins; [| discriminate Hreg].
    injection Hreg as <-.
    unfold Auth.insert_usuario in Hins.
    destruct (existsb (Auth.has_email email) (Auth.linhas t)) eqn:E1;
      [discriminate Hins |].
    destruct (existsb (String.eqb role) Auth.roles) eqn:E2; [| discriminate Hins].
    simpl in Hins. injection Hins as <-.
    split; [rewrite <- email_taken_iff; congruence |].
    split; [now apply role_allowed_iff |].
    split; [reflexivity |].
    intros c. apply next_id_above.
Qed.

Lemma register_user_outcome_witness :
  In "a@x.ao" (map Auth.email
                 (Auth.linhas (Auth.mkUsuarios
                    [Auth.mkConta 1 "A" "a@x.ao" "h" "admin" "ativo" None] 1))) /\
  Auth.register_user (fun pw salt => pw)
    (Auth.mkUsuarios [Auth.mkConta 1 "A" "a@x.ao" "h" "admin" "ativo" None] 1)
    "B" "a@x.ao" "pw" "usuario" "salt"
  = (Auth.mkUsuarios [Auth.mkConta 1 "A" "a@x.ao" "h" "admin" "ativo" None] 1, false).
Proof.
  assert (H : In "a@x.ao" (map Auth.email
                 (Auth.linhas (Auth.mkUsuarios
                    [Auth.mkConta 1 "A" "a@x.ao" "h" "admin" "ativo" None] 1))))
    by (simpl; now left).
  split; [exact H |].
  exact (proj1 (register_user_outcome (fun pw salt => pw) _ "B" "a@x.ao" "pw"
                  "usuario" "salt") (or_introl H)).
Defined.

(** X18.  Round trip of registration and login.  When checking a password
    against its own hash succeeds, an account that [register_user] accepted
    logs in with the same email and password and gets its name, role, the
    status 'ativo', no preferences and the new id; the login of every other
    email is as it was before the registration. *)
Theorem register_then_login
  (hashpw : string -> string -> string) (checkpw : string -> string -> bool)
  (t t' : Auth.Usuarios) (nome email senha role salt : string) :
  (forall pw s, checkpw pw (hashpw pw s) = true) ->
  Auth.register_user hashpw t nome email senha role salt = (t', true) ->
  Auth.login checkpw t' email senha
  = Auth.LoggedIn (Auth.mkSessionUser (Auth.next_id t) nome email role "ativo" None) /\
  forall e pw, e <> email -> Auth.login checkpw t' e pw = Auth.login checkpw t e pw.
Proof.
  intros Hb Hreg. unfold Auth.register_user in Hreg.
  destruct (Auth.insert_usuario t nome email (hashpw senha salt) role "ativo")
    as [t1 |] eqn:Hins; [| discriminate Hreg].
  injection Hreg as <-.
  unfold Auth.insert_usuario in Hins.
  destruct (existsb (Auth.has_email email) (Auth.linhas t)) eqn:E1; [discriminate |].
  destruct (existsb (String.eqb role) Auth.roles); [| discriminate].
  simpl in Hins. injection Hins as <-.
  assert (Hnew : ~ In email (map Auth.email (Auth.linhas t))).
  { rewrite <- email_taken_iff. congruence. }
  split.
  - unfold Auth.login. simpl Auth.linhas.
    rewrite find_app_new by exact Hnew.
    unfold Auth.has_email at 1. simpl Auth.email. rewrite String.eqb_refl.
    simpl. now rewrite Hb.
  - intros e pw He. unfold Auth.login. simpl Auth.linhas.
    rewrite find_app_other; [reflexivity |]. simpl. congruence.
Qed.

Lemma register_then_login_witness :
  (forall pw s : string, String.eqb pw ((fun p _ : string => p) pw s) = true) /\
  Auth.login String.eqb
    (fst (Auth.register_user (fun p _ => p) (Auth.mkUsuarios [] 0)
            "Ana" "ana@x.ao" "segredo" "usuario" "salt"))
    "ana@x.ao" "segredo"
  = Auth.LoggedIn (Auth.mkSessionUser 1 "Ana" "ana@x.ao" "usuario" "ativo" None).
Proof.
  assert (Hb : forall pw s : string,
             String.eqb pw ((fun p _ : string => p) pw s) = true)
    by (intros pw s; apply String.eqb_refl).
  split; [exact Hb |].
  exact (proj1 (register_then_login (fun p _ => p) String.eqb
                  (Auth.mkUsuarios [] 0) _ "Ana" "ana@x.ao" "segredo" "usuario"
                  "salt" Hb eq_refl)).
Defined.

(** The row found by the email, emails being a key of the table. *)
Lemma find_by_email (rows : list Auth.Conta) (c : Auth.Conta) :
  NoDup (map Auth.email rows) -> In c rows ->
  find (Auth.has_email (Auth.email c)) rows = Some c.
Proof.
  induction rows as [| x xs IH]; intros Hnd Hin; [destruct Hin |].
  simpl in Hnd. inversion Hnd as [| k ks Hnotin Hnd']; subst.
  simpl. destruct Hin as [-> | Hin].
  - assert (E : Auth.has_email (Auth.email c) c = true) by now apply has_email_iff.
    now rewrite E.
  - assert (E : Auth.has_email (Auth.email c) x = false).
    { apply not_true_iff_false. rewrite has_email_iff. intros Hx.
      apply Hnotin. rewrite Hx. now apply in_map. }
    rewrite E. now apply IH.
Qed.

(** X19.  [login] returns a user only for a row of the table with that
    email, a password that checks against the hash of that row and a status
    other than 'inativo', and the user carries the fields of that row.  With
    emails a key of the table, the outcome is decided by the row of the
    email: no such row, or a password that fails against its hash, gives
    'Credenciais inválidas'; a password that checks gives 'Usuário inativo'
    when the status is 'inativo' and the user of that row otherwise. *)
Theorem login_sound
  (checkpw : string -> string -> bool) (t : Auth.Usuarios) (email senha : string) :
  (forall user, Auth.login checkpw t email senha = Auth.LoggedIn user ->
     exists c, In c (Auth.linhas t) /\ Auth.email c = email /\
               checkpw senha (Auth.senha_hash c) = true /\
               Auth.status c <> "inativo" /\
               user = Auth.mkSessionUser (Auth.id c) (Auth.nome c) (Auth.email c)
                        (Auth.role c) (Auth.status c) (Auth.preferencias c)) /\
  (~ In email (map Auth.email (Auth.linhas t)) ->
   Auth.login checkpw t email senha = Auth.LoginError "Credenciais inválidas") /\
  (NoDup (map Auth.email (Auth.linhas t)) ->
   forall c, In c (Auth.linhas t) -> Auth.email c = email ->
     (checkpw senha (Auth.senha_hash c) = false ->
      Auth.login checkpw t email senha = Auth.LoginError "Credenciais inválidas") /\
     (checkpw senha (Auth.senha_hash c) = true -> Auth.status c = "inativo" ->
      Auth.login checkpw t email senha = Auth.LoginError "Usuário inativo") /\
     (checkpw senha (Auth.senha_hash c) = true -> Auth.status c <> "inativo" ->
      Auth.login checkpw t email senha
      = Auth.LoggedIn (Auth.mkSessionUser (Auth.id c) (Auth.nome c) (Auth.email c)
                         (Auth.role c) (Auth.status c) (Auth.preferencias c)))).
Proof.
  split; [| split].
  - unfold Auth.login.
    destruct (find (Auth.has_email email) (Auth.linhas t)) as [c |] eqn:Hfind;
      [| intros user H; discriminate H].
    apply find_some in Hfind. destruct Hfind as [Hin He].
    apply has_email_iff in He.
    intros user H.
    destruct (checkpw senha (Auth.senha_hash c)) eqn:Hpw; [| discriminate H].
    destruct (Auth.status c =? "inativo")%string eqn:Hst; [discriminate H |].
    injection H as <-. exists c. apply String.eqb_neq in Hst. now repeat split.
  - intros Hno. unfold Auth.login.
    destruct (find (Auth.has_email email) (Auth.linhas t)) as [c |] eqn:Hfind;
      [| reflexivity].
    apply find_some in Hfind. destruct Hfind as [Hin He].
    apply has_email_iff in He.
    exfalso. apply Hno. apply in_map_iff. now exists c.
  - intros Hkey c Hin He. subst email. unfold Auth.login.
    rewrite (find_by_email _ c Hkey Hin).
    split; [| split].
    + intros Hpw. now rewrite Hpw.
    + intros Hpw Hst. rewrite Hpw, Hst. reflexivity.
    + intros Hpw Hst. rewrite Hpw.
      apply String.eqb_neq in Hst. now rewrite Hst.
Qed.

(** A password that is not the one of the account, and a disabled account. *)
Lemma login_sound_witness :
  let t := Auth.mkUsuarios
             [Auth.mkConta 1 "A" "a@x.ao" "h" "admin" "ativo" None;
              Auth.mkConta 2 "B" "b@x.ao" "k" "usuario" "inativo" None] 2 in
  NoDup (map Auth.email (Auth.linhas t)) /\
  Auth.login String.eqb t "a@x.ao" "k" = Auth.LoginError "Credenciais inválidas" /\
  Auth.login String.eqb t "b@x.ao" "k" = Auth.LoginError "Usuário inativo".
Proof.
  intros t.
  assert (Hkey : NoDup (map Auth.email (Auth.linhas t))).
  { simpl. constructor.
    - intros [E | []]. discriminate E.
    - constructor; [intros [] | constructor]. }
  assert (Ha : In (Auth.mkConta 1 "A" "a@x.ao" "h" "admin" "ativo" None)
                  (Auth.linhas t)) by (simpl; now left).
  assert (Hb : In (Auth.mkConta 2 "B" "b@x.ao" "k" "usuario" "inativo" None)
                  (Auth.linhas t)) by (simpl; right; now left).
  split; [exact Hkey |]. split.
  - exact (proj1 (proj2 (proj2 (login_sound String.eqb t "a@x.ao" "k"))
                    Hkey _ Ha eq_refl) eq_refl).
  - exact (proj1 (proj2 (proj2 (proj2 (login_sound String.eqb t "b@x.ao" "k"))
                           Hkey _ Hb eq_refl)) eq_refl eq_refl).
Defined.

Lemma insert_usuario_keys (t t' : Auth.Usuarios)
  (nome email hash role status : string) :
  NoDup (map Auth.email (Auth.linhas t)) ->
  NoDup (map Auth.id (Auth.linhas t)) ->
  (forall c, In c (Auth.linhas t) -> In (Auth.role c) Auth.roles) ->
  Auth.insert_usuario t nome email hash role status = Some t' ->
  NoDup (map Auth.email (Auth.linhas t')) /\
  NoDup (map Auth.id (Auth.linhas t')) /\
  (forall c, In c (Auth.linhas t') -> In (Auth.role c) Auth.roles).
Proof.
  intros He Hi Hr Hins. unfold Auth.insert_usuario in Hins.
  destruct (existsb (Auth.has_email email) (Auth.linhas t)) eqn:E1; [discriminate |].
  destruct (existsb (String.eqb role) Auth.roles) eqn:E2; [| discriminate].
  simpl in Hins. injection Hins as <-. simpl Auth.linhas.
  assert (Hnew : ~ In email (map Auth.email (Auth.linhas t))).
  { rewrite <- email_taken_iff. congruence. }
  split; [| split].
  - rewrite map_app. apply NoDup_app; [exact He | repeat constructor; intros [] |].
    intros e Hin [<- | []]. contradiction.
  - rewrite map_app. apply NoDup_app; [exact Hi | repeat constructor; intros [] |].
    intros i Hin [<- | []]. simpl in Hin.
    apply in_map_iff in Hin. destruct Hin as [c [Hc Hin]].
    pose proof (next_id_above t c Hin). lia.
  - intros c Hin. apply in_app_or in Hin. destruct Hin as [Hin | [<- | []]].
    + now apply Hr.
    + simpl. now apply role_allowed_iff.
Qed.

(** X20.  The keys and the CHECK of [usuarios] are kept by registration:
    when emails and ids are without repetition and every role is one of the
    three allowed, the same holds of the table [register_user] leaves,
    whether it accepted the account or not. *)
Theorem register_user_keeps_keys
  (hashpw : string -> string -> string) (t : Auth.Usuarios)
  (nome email senha role salt : string) :
  NoDup (map Auth.email (Auth.linhas t)) ->
  NoDup (map Auth.id (Auth.linhas t)) ->
  (forall c, In c (Auth.linhas t) -> In (Auth.role c) Auth.roles) ->
  let t' := fst (Auth.register_user hashpw t nome email senha role salt) in
  NoDup (map Auth.email (Auth.linhas t')) /\
  NoDup (map Auth.id (Auth.linhas t')) /\
  (forall c, In c (Auth.linhas t') -> In (Auth.role c) Auth.roles).
Proof.
  intros He Hi Hr t'. unfold t', Auth.register_user.
  destruct (Auth.insert_usuario t nome email (hashpw senha salt) role "ativo")
    as [t1 |] eqn:Hins; simpl.
  - exact (insert_usuario_keys t t1 _ _ _ _ _ He Hi Hr Hins).
  - now repeat split.
Qed.

Lemma register_user_keeps_keys_witness :
  NoDup (map Auth.email (Auth.linhas (Auth.mkUsuarios [] 0))) /\
  NoDup (map Auth.id
           (Auth.linhas
              (fst (Auth.register_user (fun p _ => p) (Auth.mkUsuarios [] 0)
                      "Ana" "ana@x.ao" "segredo" "usuario" "salt")))).
Proof.
  assert (H1 : NoDup (map Auth.email (Auth.linhas (Auth.mkUsuarios [] 0))))
    by constructor.
  assert (H2 : NoDup (map Auth.id (Auth.linhas (Auth.mkUsuarios [] 0))))
    by constructor.
  split; [exact H1 |].
  refine (proj1 (proj2 (register_user_keeps_keys (fun p _ => p)
                          (Auth.mkUsuarios [] 0) "Ana" "ana@x.ao" "segredo"
                          "usuario" "salt" H1 H2 _))).
  intros c [].
Defined.

(** X21.  The seeding of the administrator never raises; afterwards an
    account with the email 'admin@imobiliaria.ao' exists; a table that has
    one is left as it is (its password is not reset), so running the
    initialization again changes nothing; and on a table without it the
    seeded account logs in with 'admin123' and has the role 'admin'. *)
Theorem init_db_seeds_admin_once
  (hashpw : string -> string -> string) (checkpw : string -> string -> bool)
  (t : Auth.Usuarios) (salt salt' : string) :
  (forall pw s, checkpw pw (hashpw pw s) = true) ->
  exists t',
    Auth.init_db hashpw t salt = Some t' /\
    In "admin@imobiliaria.ao" (map Auth.email (Auth.linhas t')) /\
    Auth.init_db hashpw t' salt' = Some t' /\
    (In "admin@imobiliaria.ao" (map Auth.email (Auth.linhas t)) -> t' = t) /\
    (~ In "admin@imobiliaria.ao" (map Auth.email (Auth.linhas t)) ->
     Auth.login checkpw t' "admin@imobiliaria.ao" "admin123"
     = Auth.LoggedIn (Auth.mkSessionUser (Auth.next_id t) "Administrador"
                        "admin@imobiliaria.ao" "admin" "ativo" None)).
Proof.
  intros Hb. unfold Auth.init_db at 1.
  destruct (find (Auth.has_email "admin@imobiliaria.ao") (Auth.linhas t))
    as [c |] eqn:Hfind.
  - exists t.
    assert (Hin : In "admin@imobiliaria.ao" (map Auth.email (Auth.linhas t))).
    { apply find_some in Hfind. destruct Hfind as [Hin He].
      apply has_email_iff in He. apply in_map_iff. now exists c. }
    split; [reflexivity |]. split; [exact Hin |]. split.
    + unfold Auth.init_db. now rewrite Hfind.
    + split; [reflexivity | intros Hno; contradiction].
  - assert (Hno : ~ In "admin@imobiliaria.ao" (map Auth.email (Auth.linhas t))).
    { intros Hin. apply in_map_iff in Hin. destruct Hin as [c [Hc Hin]].
      apply (find_none _ _ Hfind) in Hin. apply has_email_iff in Hc. congruence. }
    rewrite insert_usuario_some by (exact Hno || (simpl; tauto)).
    eexists. split; [reflexivity |]. simpl Auth.linhas.
    split; [| split; [| split]].
    + rewrite map_app. apply in_or_app. right. now left.
    + unfold Auth.init_db. simpl Auth.linhas.
      rewrite find_app_new by exact Hno. reflexivity.
    + intros Hin. contradiction.
    + intros _. unfold Auth.login. simpl Auth.linhas.
      rewrite find_app_new by exact Hno. simpl. now rewrite Hb.
Qed.

Lemma init_db_seeds_admin_once_witness :
  (forall pw s : string, String.eqb pw ((fun p _ : string => p) pw s) = true) /\
  exists t',
    Auth.init_db (fun p _ => p) (Auth.mkUsuarios [] 0) "salt" = Some t' /\
    Auth.init_db (fun p _ => p) t' "other" = Some t'.
Proof.
  assert (Hb : forall pw s : string,
             String.eqb pw ((fun p _ : string => p) pw s) = true)
    by (intros pw s; apply String.eqb_refl).
  split; [exact Hb |].
  destruct (init_db_seeds_admin_once (fun p _ => p) String.eqb
              (Auth.mkUsuarios [] 0) "salt" "other" Hb)
    as [t' [H1 [_ [H2 _]]]].
  exists t'. split; [exact H1 | exact H2].
Defined.

(** X22.  A newly registered user has no stored preferences, so the content
    scorer uses the default record for that user: every content
    recommendation of the new user is of type 'casa' and province
    'Luanda'. *)
Theorem new_user_gets_default_preferences
  (sqrt : Q -> Q) (hashpw : string -> string -> string)
  (t t' : Auth.Usuarios) (nome email senha role salt : string)
  (cat : list Imovel) (log : list Interacao) (n : Z) :
  Auth.register_user hashpw t nome email senha role salt = (t', true) ->
  let db := mkDatabase (map Auth.usuario_of_conta (Auth.linhas t')) cat log in
  user_prefs_of (select_preferencias db (Auth.next_id t)) = default_prefs /\
  forall r, In r (get_content_based_recommendations sqrt db (Auth.next_id t) n) ->
            tipo (imovel r) = "casa" /\ provincia (imovel r) = "Luanda".
Proof.
  intros Hreg. unfold Auth.register_user in Hreg.
  destruct (Auth.insert_usuario t nome email (hashpw senha salt) role "ativo")
    as [t1 |] eqn:Hins; [| discriminate Hreg].
  injection Hreg as <-. unfold Auth.insert_usuario in Hins.
  destruct (existsb (Auth.has_email email) (Auth.linhas t)); [discriminate |].
  destruct (existsb (String.eqb role) Auth.roles); [| discriminate].
  simpl in Hins. injection Hins as <-. simpl Auth.linhas. intros db.
  assert (Hsel : select_preferencias db (Auth.next_id t) = [None]).
  { unfold select_preferencias, db. simpl usuarios. rewrite map_app.
    rewrite filter_app. simpl. rewrite Z.eqb_refl.
    rewrite filter_none; [reflexivity |].
    intros u Hu. apply in_map_iff in Hu. destruct Hu as [c [<- Hc]].
    simpl. apply Z.eqb_neq. pose proof (next_id_above t c Hc). lia. }
  assert (Hp : user_prefs_of (select_preferencias db (Auth.next_id t))
               = default_prefs) by now rewrite Hsel.
  split; [exact Hp |].
  intros r Hr.
  destruct (content_filter_sound sqrt db (Auth.next_id t) n r Hr) as [_ [Ht Hv]].
  rewrite Hp in Ht, Hv. split; [now apply Ht | now apply Hv].
Qed.

Lemma new_user_gets_default_preferences_witness :
  Auth.register_user (fun p _ => p) (Auth.mkUsuarios [] 0)
    "Ana" "ana@x.ao" "segredo" "usuario" "salt"
  = (Auth.mkUsuarios
       [Auth.mkConta 1 "Ana" "ana@x.ao" "segredo" "usuario" "ativo" None] 1, true) /\
  user_prefs_of
    (select_preferencias
       (mkDatabase
          (map Auth.usuario_of_conta
             [Auth.mkConta 1 "Ana" "ana@x.ao" "segredo" "usuario" "ativo" None])
          [Tables.A; Tables.B] []) 1)
  = default_prefs.
Proof.
  assert (H : Auth.register_user (fun p _ => p) (Auth.mkUsuarios [] 0)
                "Ana" "ana@x.ao" "segredo" "usuario" "salt"
              = (Auth.mkUsuarios
                   [Auth.mkConta 1 "Ana" "ana@x.ao" "segredo" "usuario" "ativo" None] 1,
                 true)) by reflexivity.
  split; [exact H |].
  exact (proj1 (new_user_gets_default_preferences sqrt_approx (fun p _ => p)
                  (Auth.mkUsuarios [] 0) _ "Ana" "ana@x.ao" "segredo" "usuario"
                  "salt" [Tables.A; Tables.B] [] 5 H)).
Defined.

(** * Favourites page, frequency ranking and top rows *)

(** X23.  The favourites page lists exactly the approved listings the user
    has as favourites: a listing whose status is set to anything but
    'aprovado' leaves the page, and so does a favourite that is removed. *)
Theorem favourites_page_rows
  (db : Database) (favoritos : list (Z * Z)) (u x : Z) (new_status : string) :
  (forall i, In i (show_favorites_query (imoveis db) favoritos u) <->
             In i (imoveis db) /\ In (u, id i) favoritos /\
             status i = "aprovado") /\
  (new_status <> "aprovado" ->
   forall i, In i (show_favorites_query
                     (imoveis (update_property_status db x new_status))
                     favoritos u) ->
             id i <> x) /\
  (forall i, In i (show_favorites_query (imoveis db)
                     (remove_favorite favoritos u x) u) ->
             id i <> x).
Proof.
  assert (Hrows : forall cat favs i,
             In i (show_favorites_query cat favs u) <->
             In i cat /\ In (u, id i) favs /\ status i = "aprovado").
  { intros cat favs i. unfold show_favorites_query.
    rewrite filter_In, andb_true_iff, is_favorited_In, String.eqb_eq. tauto. }
  split; [apply Hrows |]. split.
  - intros Hs i Hi. apply Hrows in Hi. destruct Hi as [Hin [_ Hst]].
    destruct (update_status_rows db x new_status i Hin) as [j [_ [Hid [Hx _]]]].
    intros E. apply Hs. rewrite <- Hst. symmetry. apply Hx. congruence.
  - intros i Hi. apply Hrows in Hi. destruct Hi as [_ [Hf _]].
    apply remove_favorite_In in Hf. destruct Hf as [_ Hne]. congruence.
Qed.

Lemma favourites_page_rows_witness :
  "rejeitado" <> "aprovado" /\
  show_favorites_query (imoveis Tables.db) [(1, 1); (1, 2)] 1 = [Tables.A; Tables.B] /\
  ~ In 2 (map id (show_favorites_query
                    (imoveis (update_property_status Tables.db 2 "rejeitado"))
                    [(1, 1); (1, 2)] 1)).
Proof.
  assert (H : "rejeitado" <> "aprovado") by discriminate.
  split; [exact H |]. split; [reflexivity |].
  intros Hin. rewrite in_map_iff in Hin. destruct Hin as [i [Hid Hi]].
  destruct (favourites_page_rows Tables.db [(1, 1); (1, 2)] 1 2 "rejeitado")
    as [_ [Hrej _]].
  exact (Hrej H i Hi Hid).
Defined.

Lemma StronglySorted_app_inv {A : Type} (R : A -> A -> Prop) (l1 l2 : list A) :
  StronglySorted R (l1 ++ l2) -> forall a b, In a l1 -> In b l2 -> R a b.
Proof.
  induction l1 as [| x xs IH]; intros Hs a b Ha Hb; [destruct Ha |].
  simpl in Hs. inversion Hs as [| y ys Hrest Hall]; subst.
  destruct Ha as [<- | Ha].
  - rewrite Forall_forall in Hall. apply Hall. apply in_or_app. now right.
  - now apply IH.
Qed.

(** X24.  The ids kept by the collaborative scorer are the n most frequent:
    for n >= 0 the frequency ranking of the neighbours' rows splits into the
    min(n, length) entries kept and the entries dropped, and no dropped id
    is more frequent than a kept one. *)
Theorem kept_ids_most_frequent
  (sqrt : Q -> Q) (log : list Interacao) (user_id n : Z) :
  0 <= n ->
  let neighbours := map fst (similar_users sqrt log user_id) in
  let ranking :=
    value_counts
      (map imovel_id (filter (fun r => isin (usuario_id r) neighbours) log)) in
  let kept := recommended_imoveis sqrt log user_id n in
  exists dropped,
    ranking = kept ++ dropped /\
    length kept = Nat.min (Z.to_nat n) (length ranking) /\
    forall a b, In a kept -> In b dropped -> snd b <= snd a.
Proof.
  intros Hn neighbours ranking kept.
  exists (skipn (Z.to_nat n) ranking).
  assert (E : kept = firstn (Z.to_nat n) ranking).
  { unfold kept, recommended_imoveis. now rewrite head_nonneg. }
  rewrite E. split; [symmetry; apply firstn_skipn |].
  split; [apply length_firstn |].
  apply (StronglySorted_app_inv (fun a b : Z * Z => snd b <= snd a)).
  rewrite firstn_skipn. apply value_counts_sorted.
Qed.

Lemma kept_ids_most_frequent_witness :
  0 <= 2 /\
  recommended_imoveis sqrt_approx Tables.log 1 2 = [(2, 2); (1, 1)] /\
  exists dropped,
    value_counts
      (map imovel_id
         (filter (fun r => isin (usuario_id r)
                             (map fst (similar_users sqrt_approx Tables.log 1)))
                 Tables.log))
    = recommended_imoveis sqrt_approx Tables.log 1 2 ++ dropped.
Proof.
  assert (H : 0 <= 2) by lia.
  split; [exact H |]. split; [vm_compute; reflexivity |].
  destruct (kept_ids_most_frequent sqrt_approx Tables.log 1 2 H) as [d [E _]].
  exists d. exact E.
Defined.

(** X25.  The content result keeps the n most similar candidates: the
    candidate rows (catalog with similarity, after the filters) are the rows
    kept together with rows left out, and no row left out has a larger
    similarity than a row kept; min(n, candidates) rows are kept. *)
Theorem content_keeps_most_similar
  (sqrt : Q -> Q) (db : Database) (user_id n : Z) :
  0 < n ->
  aprovados db <> [] ->
  let user_prefs := user_prefs_of (select_preferencias db user_id) in
  let candidates :=
    filter_prefs user_prefs
      (combine (aprovados db) (similarities sqrt (aprovados db) user_prefs)) in
  exists kept left_out : list (Imovel * Q),
    get_content_based_recommendations sqrt db user_id n
    = map (fun r => mkRow (fst r) (Some (snd r))) kept /\
    Permutation candidates (kept ++ left_out) /\
    length kept = Nat.min (Z.to_nat n) (length candidates) /\
    forall a b, In a kept -> In b left_out -> (snd b <= snd a)%Q.
Proof.
  intros Hn Hne user_prefs candidates.
  exists (firstn (Z.to_nat n) (sort_desc Qlt_bool snd candidates)),
         (skipn (Z.to_nat n) (sort_desc Qlt_bool snd candidates)).
  assert (Hnl : nlargest n candidates
                = firstn (Z.to_nat n) (sort_desc Qlt_bool snd candidates)).
  { unfold nlargest. destruct (n <=? 0) eqn:E; [lia | reflexivity]. }
  split; [| split; [| split]].
  - rewrite <- Hnl. now apply content_as_nlargest.
  - rewrite firstn_skipn. apply sort_desc_perm.
  - now rewrite length_firstn, sort_desc_length.
  - apply (StronglySorted_app_inv (fun a b : Imovel * Q => (snd b <= snd a)%Q)).
    rewrite firstn_skipn.
    pose proof (nlargest_sorted (Z.of_nat (length candidates) + 1) candidates) as Hs.
    unfold nlargest in Hs.
    destruct (Z.of_nat (length candidates) + 1 <=? 0) eqn:E.
    { apply Z.leb_le in E. pose proof (Nat2Z.is_nonneg (length candidates)). lia. }
    rewrite firstn_all2 in Hs; [exact Hs |].
    rewrite sort_desc_length, Z2Nat.inj_add, Nat2Z.id by lia.
    simpl. lia.
Qed.

Lemma content_keeps_most_similar_witness :
  0 < 2 /\ aprovados Tables.db <> [] /\
  exists kept left_out : list (Imovel * Q),
    get_content_based_recommendations sqrt_approx Tables.db 1 2
    = map (fun r => mkRow (fst r) (Some (snd r))) kept /\
    forall a b, In a kept -> In b left_out -> (snd b <= snd a)%Q.
Proof.
  assert (H1 : 0 < 2) by lia.
  assert (H2 : aprovados Tables.db <> []) by (vm_compute; discriminate).
  split; [exact H1 |]. split; [exact H2 |].
  destruct (content_keeps_most_similar sqrt_approx Tables.db 1 2 H1 H2)
    as [kept [left_out [E [_ [_ Hle]]]]].
  exists kept, left_out. split; [exact E | exact Hle].
Defined.
